(** * qiime.remote: loading a mapping file from a Google Spreadsheet

    A shallow embedding of [qiime/remote.py] and the properties of its
    key extractor, header cleaner, mapping exporter, serializer and
    top-level loader.

    Python 2 [str] values are byte strings: they are modelled by [string].
    A dictionary is a [gmap]; an exception is a value of [exn] carried by
    [result]. *)

From Stdlib Require Import String Ascii List Arith Lia Bool.
From Stdlib Require Import Decimal DecimalString DecimalNat.
From stdpp Require Import base option list strings gmap.
From Equations Require Import Equations.

(** ** Python string operations used by the module *)

Module PyStr.

(** Characters that the source writes with escapes. *)
Definition TAB : ascii := ascii_of_nat 9.
Definition LF : ascii := ascii_of_nat 10.
Definition NUL : ascii := ascii_of_nat 0.
Definition DQUOTE : ascii := ascii_of_nat 34.

(** A one-character string. *)
Definition chr (c : ascii) : string := String c EmptyString.

(** [c in s] for a character. *)
Fixpoint has_char (c : ascii) (s : string) : bool :=
  match s with
  | EmptyString => false
  | String a s' => if decide (a = c) then true else has_char c s'
  end.

(** [s.lower()] on a byte string (C locale): only [A]-[Z] change. *)
Definition is_upper (c : ascii) : bool :=
  ((65 <=? nat_of_ascii c) && (nat_of_ascii c <=? 90))%nat.

Definition lower_char (c : ascii) : ascii :=
  if is_upper c then ascii_of_nat (nat_of_ascii c + 32) else c.

Fixpoint lower (s : string) : string :=
  match s with
  | EmptyString => EmptyString
  | String c s' => String (lower_char c) (lower s')
  end.

(** [s.replace(old, '')] for a one-character [old]: every occurrence of
    the character is deleted. *)
Fixpoint replace_with_empty (old : ascii) (s : string) : string :=
  match s with
  | EmptyString => EmptyString
  | String c s' =>
      if decide (c = old) then replace_with_empty old s'
      else String c (replace_with_empty old s')
  end.

(** [s.lstrip()]: leading whitespace (space, [\t], [\n], [\v], [\f],
    [\r]) is dropped. *)
Definition isspace (c : ascii) : bool :=
  let n := nat_of_ascii c in ((n =? 32) || ((9 <=? n) && (n <=? 13)))%nat.

Fixpoint lstrip (s : string) : string :=
  match s with
  | EmptyString => EmptyString
  | String c s' => if isspace c then lstrip s' else s
  end.

(** [s.startswith(p)], returning what follows the prefix. *)
Fixpoint strip_prefix (p s : string) : option string :=
  match p, s with
  | EmptyString, _ => Some s
  | String a p', String b s' =>
      if decide (a = b) then strip_prefix p' s' else None
  | String _ _, EmptyString => None
  end.

Definition startswith (p s : string) : bool :=
  bool_decide (is_Some (strip_prefix p s)).

(** [s.partition(sep)] at the leftmost occurrence of [sep]; [None] when
    [sep] does not occur. *)
Fixpoint partition (sep s : string) : option (string * string) :=
  match strip_prefix sep s with
  | Some after => Some (EmptyString, after)
  | None =>
      match s with
      | EmptyString => None
      | String c s' =>
          match partition sep s' with
          | Some (before, after) => Some (String c before, after)
          | None => None
          end
      end
  end.

(** [sub in s]. *)
Definition contains (sub s : string) : bool :=
  bool_decide (is_Some (partition sub s)).

(** ['%d' % n] for a non-negative integer. *)
Definition str_of_nat (n : nat) : string :=
  NilEmpty.string_of_uint (Nat.to_uint n).

(** [sep.join(parts)]. *)
Fixpoint join (sep : string) (parts : list string) : string :=
  match parts with
  | [] => EmptyString
  | [p] => p
  | p :: ps => p +:+ sep +:+ join sep ps
  end.

End PyStr.

Import PyStr.

Definition inspect {A : Type} (a : A) : {b : A | a = b} := exist _ a eq_refl.

Module PySplit.

(** [s.split(sep)] for a non-empty separator: cut at the leftmost
    occurrence and go on with what follows it.  Python raises ValueError
    on an empty separator; every separator of the module is a non-empty
    literal, and the model gives the whole string back there. *)
Equations? split (sep s : string) : list string by wf (String.length s) lt :=
  split sep s with inspect (partition sep s) => {
    | exist _ (Some (before, after)) E with decide (sep = EmptyString) => {
        | left _ := [s]
        | right _ := before :: split sep after };
    | exist _ None _ := [s] }.
Proof.
  assert (Hpre : forall p t r, strip_prefix p t = Some r ->
                   String.length t = String.length p + String.length r).
  { clear. induction p as [|a p IH]; intros t r; simpl.
    - intros [= ->]. reflexivity.
    - destruct t as [|b t]; [discriminate|].
      destruct (decide (a = b)); [|discriminate].
      intros H%IH. simpl. lia. }
  assert (Hcut : forall t b a, partition sep t = Some (b, a) ->
                   String.length sep + String.length a <= String.length t).
  { clear - Hpre. induction t as [|c t IH]; intros b a; simpl.
    - destruct (strip_prefix sep "") as [r|] eqn:Er; [|discriminate].
      intros [= <- <-]. apply Hpre in Er. simpl in Er. lia.
    - destruct (strip_prefix sep (String c t)) as [r|] eqn:Er.
      + intros [= <- <-]. apply Hpre in Er. simpl in Er. lia.
      + destruct (partition sep t) as [[b' a']|] eqn:Ep; [|discriminate].
        intros [= <- <-]. specialize (IH _ _ eq_refl). lia. }
  apply Hcut in E. destruct sep; [congruence|]. simpl in E. lia.
Qed.

End PySplit.
Import PySplit.

(** [l[-1]] and [l[0]] on the list a [split] returns (never empty). *)
Definition last_item (l : list string) : string := List.last l EmptyString.
Definition first_item (l : list string) : string := List.hd EmptyString l.

(** ** Exceptions and results *)

Inductive exn : Type :=
| RemoteMappingFileError (msg : string)
| RemoteMappingFileConnectionError (msg : string)
| gaierror
| AttributeError (msg : string)
| NameError (msg : string).

(** [class RemoteMappingFileConnectionError(RemoteMappingFileError)]:
    what [except RemoteMappingFileError] would catch. *)
Definition isinstance_RemoteMappingFileError (e : exn) : bool :=
  match e with
  | RemoteMappingFileError _ | RemoteMappingFileConnectionError _ => true
  | _ => false
  end.

Definition isinstance_RemoteMappingFileConnectionError (e : exn) : bool :=
  match e with
  | RemoteMappingFileConnectionError _ => true
  | _ => false
  end.

Inductive result (A : Type) : Type :=
| Return (a : A)
| Raise (e : exn).
Arguments Return {A} a.
Arguments Raise {A} e.

#[global] Instance result_ret : MRet result := fun A a => Return a.
#[global] Instance result_bind : MBind result := fun A B f r =>
  match r with
  | Return a => f a
  | Raise e => Raise e
  end.

(** ** The spreadsheet service, as the module sees it *)

(** A worksheet entry: [sheet.title.text] and [sheet.id.text]. *)
Record WorksheetEntry : Type := {
  title_text : string;
  id_text : string
}.

(** A feed is a page of entries with an optional link to the next page
    ([feed.entry], [feed.GetNextLink()]). *)
Inductive Feed (A : Type) : Type :=
| LastPage (entry : list A)
| LinkedPage (entry : list A) (next : Feed A).
Arguments LastPage {A} entry.
Arguments LinkedPage {A} entry next.

Definition entry {A : Type} (feed : Feed A) : list A :=
  match feed with
  | LastPage e | LinkedPage e _ => e
  end.

Definition GetNextLink {A : Type} (feed : Feed A) : option (Feed A) :=
  match feed with
  | LastPage _ => None
  | LinkedPage _ next => Some next
  end.

(** The text of a cell of a list-feed row; a blank cell has text [None]. *)
Abbreviation cell := (option string).

(** [row.custom]: the cells of a row under the service's cleaned header
    keys. *)
Abbreviation Row := (gmap string cell).

(** The public, read-only service.  [GetWorksheetsFeed] is the first
    request and is where a name-resolution failure ([gaierror]) shows. *)
Record SpreadsheetsService : Type := {
  GetWorksheetsFeed : string -> result (list WorksheetEntry);
  GetCellsFeed : string -> string -> Feed string;
  GetListFeed : string -> string -> Feed Row
}.

(** ** csv.writer(out, delimiter='\t', lineterminator='\n')

    The other parameters are those of the default (excel) dialect:
    QUOTE_MINIMAL, the double quote as quote character, doubled inside a
    quoted field.  The writer of Python 2 reads a field as a C string, so
    it stops at a NUL byte. *)

Module Csv.

Definition delimiter : ascii := TAB.
Definition quotechar : ascii := DQUOTE.
Definition lineterminator : string := chr LF.

Fixpoint c_str (s : string) : string :=
  match s with
  | EmptyString => EmptyString
  | String c s' => if decide (c = NUL) then EmptyString else String c (c_str s')
  end.

(** A field holding one of these characters is quoted. *)
Definition special (c : ascii) : bool :=
  bool_decide (c = delimiter) || bool_decide (c = quotechar)
  || has_char c lineterminator.

Fixpoint has_special (s : string) : bool :=
  match s with
  | EmptyString => false
  | String c s' => special c || has_special s'
  end.

(** The field data, each quote character doubled. *)
Fixpoint doublequote (s : string) : string :=
  match s with
  | EmptyString => EmptyString
  | String c s' =>
      if decide (c = quotechar) then String quotechar (String c (doublequote s'))
      else String c (doublequote s')
  end.

(** [None] is written as the empty string. *)
Definition field_text (f : cell) : string := default EmptyString f.

(** One field; [quote_empty] holds for the only field of a row. *)
Definition write_field (quote_empty : bool) (f : cell) : string :=
  let data := c_str (field_text f) in
  let quoted :=
    has_special data || (bool_decide (data = EmptyString) && quote_empty) in
  if quoted then chr quotechar +:+ doublequote data +:+ chr quotechar
  else data.

Definition writerow (row : list cell) : string :=
  join (chr delimiter) (map (write_field (length row =? 1)%nat) row)
  +:+ lineterminator.

Definition writerows (rows : list (list cell)) : string :=
  foldr (fun row out => writerow row +:+ out) EmptyString rows.

End Csv.

Import Csv.

(** ** qiime/remote.py *)

(** [_extract_spreadsheet_key_from_url(url)] *)
Definition _extract_spreadsheet_key_from_url (url : string) : string :=
  let result := url in
  if contains "key=" url then
    first_item (split "&" (first_item (split "#" (last_item (split "key=" url)))))
  else result.

(** [_get_spreadsheet_headers]: the texts of the cells of row 1, page
    after page. *)
Fixpoint collect_header_pages (feed : Feed string) (headers : list string)
  : list string :=
  let headers := headers ++ entry feed in
  match feed with
  | LinkedPage _ next => collect_header_pages next headers
  | LastPage _ => headers
  end.

Definition _get_spreadsheet_headers (client : SpreadsheetsService)
    (spreadsheet_key worksheet_id : string) : list string :=
  let headers := [] in
  let feed := GetCellsFeed client spreadsheet_key worksheet_id in
  collect_header_pages feed headers.

(** The sanitized form of one header (first loop of
    [_get_cleaned_headers]). *)
Definition sanitize (header : string) : string :=
  replace_with_empty "#"
    (replace_with_empty " "
       (replace_with_empty ":"
          (replace_with_empty "_" (lower header)))).

(** [header_count[c]] on a [defaultdict(int)]. *)
Definition count_of (header_count : gmap string nat) (c : string) : nat :=
  default 0 (header_count !! c).

(** The body of the second loop of [_get_cleaned_headers], on the state
    [(header_count, results)]. *)
Definition number_header (st : gmap string nat * list string)
    (hc : string * string) : gmap string nat * list string :=
  let '(header_count, results) := st in
  let '(header, cleaned_header) := hc in
  let new_header :=
    if (0 <? count_of header_count cleaned_header)%nat
    then cleaned_header +:+ "_" +:+ str_of_nat (count_of header_count cleaned_header)
    else cleaned_header in
  (<[cleaned_header := count_of header_count cleaned_header + 1]> header_count,
   results ++ [new_header]).

(** [_get_cleaned_headers(headers)] *)
Definition _get_cleaned_headers (headers : list string) : list string :=
  let cleaned_headers := map sanitize headers in
  snd (foldl number_header (∅, []) (zip headers cleaned_headers)).

(** [enumerate(l)] *)
Definition enumerate {A : Type} (l : list A) : list (nat * A) :=
  zip (seq 0 (length l)) l.

(** The message raised for a header with no cell under its cleaned key. *)
Definition unmapped_header_msg (header : string) : string :=
  "Could not map header '" +:+ header +:+
  "' to Google Spreadsheet's internal representation of the header. We suggest changing the name of the header in your Google Spreadsheet to be alphanumeric if possible, as this will likely solve the issue.".

(** The loop over the columns of one row, on the state
    [(line, found_data)]; the comment case leaves the loop ([break]).
    A blank first cell has text [None], which has no [lstrip]. *)
Fixpoint export_cells (row : Row) (cols : list (nat * (string * string)))
    (line : list cell) (found_data : bool) : result (list cell * bool) :=
  match cols with
  | [] => Return (line, found_data)
  | (header_idx, (header, cleaned_header)) :: cols' =>
      match row !! cleaned_header with
      | None => Raise (RemoteMappingFileError (unmapped_header_msg header))
      | Some cell_data =>
          if negb found_data && (header_idx =? 0)%nat then
            match cell_data with
            | None =>
                Raise (AttributeError "'NoneType' object has no attribute 'lstrip'")
            | Some text =>
                if startswith "#" (lstrip text)
                then Return (line ++ [cell_data], found_data)
                else export_cells row cols' (line ++ [cell_data]) true
            end
          else export_cells row cols' (line ++ [cell_data]) true
      end
  end.

(** The loop over the rows of one page, on the state
    [(mapping_lines, found_data)]. *)
Fixpoint export_rows (headers cleaned_headers : list string) (rows : list Row)
    (mapping_lines : list (list cell)) (found_data : bool)
  : result (list (list cell) * bool) :=
  match rows with
  | [] => Return (mapping_lines, found_data)
  | row :: rows' =>
      '(line, found_data) ←
        export_cells row (enumerate (zip headers cleaned_headers)) [] found_data;
      export_rows headers cleaned_headers rows' (mapping_lines ++ [line]) found_data
  end.

(** The module never imports [SpreadsheetsListFeedFromString], the
    converter named when the list feed has a next page: evaluating the
    name raises. *)
Definition SpreadsheetsListFeedFromString : result unit :=
  Raise (NameError "global name 'SpreadsheetsListFeedFromString' is not defined").

(** The [while True] loop over the pages of the list feed; [found_data]
    starts as [False] on each page. *)
Fixpoint export_pages (headers cleaned_headers : list string)
    (rows_feed : Feed Row) (mapping_lines : list (list cell))
  : result (list (list cell)) :=
  let found_data := false in
  '(mapping_lines, _) ←
    export_rows headers cleaned_headers (entry rows_feed) mapping_lines found_data;
  match rows_feed with
  | LinkedPage _ next =>
      _ ← SpreadsheetsListFeedFromString;
      export_pages headers cleaned_headers next mapping_lines
  | LastPage _ => Return mapping_lines
  end.

(** [_export_mapping_file(client, spreadsheet_key, worksheet_id, headers)];
    the header line holds the header strings. *)
Definition _export_mapping_file (client : SpreadsheetsService)
    (spreadsheet_key worksheet_id : string) (headers : list string)
  : result (list (list cell)) :=
  let cleaned_headers := _get_cleaned_headers headers in
  let mapping_lines := [map Some headers] in
  let rows_feed := GetListFeed client spreadsheet_key worksheet_id in
  export_pages headers cleaned_headers rows_feed mapping_lines.

(** The messages of [load_google_spreadsheet_mapping_file]. *)
Definition connection_msg : string :=
  "Could not establish connection with server. Do you have an active Internet connection?".

Definition no_worksheets_msg (spreadsheet_key : string) : string :=
  "The Google Spreadsheet with key '" +:+ spreadsheet_key +:+
  "' does not have any worksheets associated with it.".

Definition worksheet_not_found_msg (worksheet_name spreadsheet_key : string)
  : string :=
  "The worksheet name '" +:+ worksheet_name +:+
  "' could not be found in the Google Spreadsheet with key '" +:+
  spreadsheet_key +:+ "'.".

Definition empty_header_msg (spreadsheet_key : string) : string :=
  "Could not load mapping file header (it appears to be empty). Is your Google Spreadsheet with key '" +:+
  spreadsheet_key +:+ "' empty?".

(** The search loop for a named worksheet: its body overwrites
    [worksheet] at every match, and the loop has no [break]. *)
Definition keep_match (worksheet_name : string)
    (worksheet : option WorksheetEntry) (sheet : WorksheetEntry)
  : option WorksheetEntry :=
  if decide (title_text sheet = worksheet_name) then Some sheet else worksheet.

Definition find_worksheet (worksheet_name : string)
    (entries : list WorksheetEntry) : option WorksheetEntry :=
  foldl (keep_match worksheet_name) None entries.

(** [worksheet.id.text.split('/')[-1]] *)
Definition worksheet_id_of (worksheet : WorksheetEntry) : string :=
  last_item (split "/" (id_text worksheet)).

(** Lines 86-108 of [load_google_spreadsheet_mapping_file]: what the
    function does once [worksheet] is chosen. *)
Definition read_worksheet (gd_client : SpreadsheetsService)
    (spreadsheet_key : string) (worksheet : WorksheetEntry) : result string :=
  let worksheet_id := worksheet_id_of worksheet in
  let headers := _get_spreadsheet_headers gd_client spreadsheet_key worksheet_id in
  if (length headers <? 1)%nat then
    Raise (RemoteMappingFileError (empty_header_msg spreadsheet_key))
  else
    mapping_lines ←
      _export_mapping_file gd_client spreadsheet_key worksheet_id headers;
    Return (writerows mapping_lines).

(** [load_google_spreadsheet_mapping_file(spreadsheet_key, worksheet_name)];
    [gd_client] is the service the call reaches. *)
Definition load_google_spreadsheet_mapping_file (gd_client : SpreadsheetsService)
    (spreadsheet_key : string) (worksheet_name : option string) : result string :=
  let spreadsheet_key := _extract_spreadsheet_key_from_url spreadsheet_key in
  worksheets_feed ←
    match GetWorksheetsFeed gd_client spreadsheet_key with
    | Raise gaierror => Raise (RemoteMappingFileConnectionError connection_msg)
    | r => r
    end;
  match worksheets_feed with
  | [] => Raise (RemoteMappingFileError (no_worksheets_msg spreadsheet_key))
  | first_entry :: _ =>
    worksheet ←
      match worksheet_name with
      | Some worksheet_name =>
          match find_worksheet worksheet_name worksheets_feed with
          | None =>
              Raise (RemoteMappingFileError
                       (worksheet_not_found_msg worksheet_name spreadsheet_key))
          | Some worksheet => Return worksheet
          end
      | None => Return first_entry
      end;
    read_worksheet gd_client spreadsheet_key worksheet
  end.

(** * Vocabulary of the properties and sample data *)

(** What the numbering loop maintains: [results] has no repetition and
    each of its members is a sanitized name seen once or more, or a
    sanitized name with a number below its count. *)
Definition numbering_inv (st : gmap string nat * list string) : Prop :=
  NoDup st.2
  /\ (forall r, r ∈ st.2 ->
        (has_char "_" r = false /\ 0 < count_of st.1 r)
        \/ exists c k, r = c +:+ "_" +:+ str_of_nat k
                       /\ has_char "_" c = false /\ 0 < k < count_of st.1 c)
  /\ (forall c, has_char "_" c = false -> count_of st.1 c = 0 -> c ∉ st.2).

(** [sub] occurs in [s]. *)
Definition occurs (sub s : string) : Prop :=
  exists before after, s = before +:+ sub +:+ after.

(** [rest] is what follows the last occurrence of [sub] in [s]: no
    occurrence starts further right. *)
Definition after_last_occurrence (sub s rest : string) : Prop :=
  exists before,
    s = before +:+ sub +:+ rest
    /\ forall before' rest',
         s = before' +:+ sub +:+ rest' ->
         String.length before' <= String.length before.

(** [s] truncated at the first [c]: what precedes it, or all of [s] when
    [c] does not occur. *)
Fixpoint truncate_at (c : ascii) (s : string) : string :=
  match s with
  | EmptyString => EmptyString
  | String a s' => if decide (a = c) then EmptyString else String a (truncate_at c s')
  end.

(** The worksheet the loader reads: the last entry with the requested
    title, or the first entry when no name is given. *)
Definition selected_worksheet (worksheet_name : option string)
    (entries : list WorksheetEntry) : option WorksheetEntry :=
  match worksheet_name with
  | Some name => find_worksheet name entries
  | None => head entries
  end.

(** Sample services: a spreadsheet without worksheets, an unreachable
    server, and a spreadsheet with two worksheets of the same title. *)
Definition no_sheets_service : SpreadsheetsService :=
  {| GetWorksheetsFeed := fun _ => Return [];
     GetCellsFeed := fun _ _ => LastPage [];
     GetListFeed := fun _ _ => LastPage [] |}.

Definition offline_service : SpreadsheetsService :=
  {| GetWorksheetsFeed := fun _ => Raise gaierror;
     GetCellsFeed := fun _ _ => LastPage [];
     GetListFeed := fun _ _ => LastPage [] |}.

Definition sheet_od6 : WorksheetEntry :=
  {| title_text := "Map"; id_text := "https://spreadsheets/feeds/worksheets/K/public/basic/od6" |}.

Definition sheet_od7 : WorksheetEntry :=
  {| title_text := "Map"; id_text := "https://spreadsheets/feeds/worksheets/K/public/basic/od7" |}.

Definition sheet_blank : WorksheetEntry :=
  {| title_text := "Blank"; id_text := "https://spreadsheets/feeds/worksheets/K/public/basic/od8" |}.

Definition two_maps_service : SpreadsheetsService :=
  {| GetWorksheetsFeed := fun _ => Return [sheet_od6; sheet_od7; sheet_blank];
     GetCellsFeed := fun _ worksheet_id =>
       if decide (worksheet_id = "od6") then LastPage ["first"]
       else if decide (worksheet_id = "od7")
            then LinkedPage ["#SampleID"] (LastPage ["Treatment"])
            else LastPage [];
     GetListFeed := fun _ worksheet_id =>
       if decide (worksheet_id = "od7")
       then LastPage [ {[ "sampleid" := Some "PC.354"; "treatment" := Some "Control" ]} ]
       else LastPage [] |}.

(** The first cell of [row], under the first cleaned header [c], is text
    that starts with [#] once leading whitespace is stripped. *)
Definition starts_comment (c : string) (row : Row) : bool :=
  match row !! c with
  | Some (Some text) => startswith "#" (lstrip text)
  | _ => false
  end.

(** The cells of [row] under each cleaned header, left to right; the
    first header without a cell raises. *)
Fixpoint lookup_cells (row : Row) (hcs : list (string * string))
  : result (list cell) :=
  match hcs with
  | [] => Return []
  | (header, cleaned_header) :: hcs' =>
      match row !! cleaned_header with
      | None => Raise (RemoteMappingFileError (unmapped_header_msg header))
      | Some cell_data =>
          cells ← lookup_cells row hcs'; Return (cell_data :: cells)
      end
  end.

(** Columns on which the comment test cannot fire: the flag is already
    set, or no column has index 0. *)
Definition past_comment_test (cols : list (nat * (string * string)))
    (found_data : bool) : Prop :=
  found_data = true \/ Forall (fun col => col.1 <> 0) cols.

(** Sample services for the exporter: a data row followed by a row whose
    first cell starts with [#], and a lone comment row with no cell in
    the second column. *)
Definition data_then_hash_service : SpreadsheetsService :=
  {| GetWorksheetsFeed := fun _ => Return [sheet_od6];
     GetCellsFeed := fun _ _ => LastPage ["a"; "b"];
     GetListFeed := fun _ _ =>
       LastPage [ {[ "a" := Some "x"; "b" := Some "y" ]};
                  {[ "a" := Some "  #c"; "b" := Some "z" ]} ] |}.

Definition comment_only_service : SpreadsheetsService :=
  {| GetWorksheetsFeed := fun _ => Return [sheet_od6];
     GetCellsFeed := fun _ _ => LastPage ["a"; "b"];
     GetListFeed := fun _ _ => LastPage [ {[ "a" := Some "#note" ]} ] |}.

Definition comment_then_gap_service : SpreadsheetsService :=
  {| GetWorksheetsFeed := fun _ => Return [sheet_od6];
     GetCellsFeed := fun _ _ => LastPage ["a"; "b"];
     GetListFeed := fun _ _ =>
       LastPage [ {[ "a" := Some "#note"; "b" := None ]};
                  {[ "a" := Some "x" ]} ] |}.

Definition comment_then_data_service : SpreadsheetsService :=
  {| GetWorksheetsFeed := fun _ => Return [sheet_od6];
     GetCellsFeed := fun _ _ => LastPage ["a"; "b"];
     GetListFeed := fun _ _ =>
       LastPage [ {[ "a" := Some "  #a comment"; "b" := None ]};
                  {[ "a" := Some "x"; "b" := Some "y" ]} ] |}.

(** The tab-joined, line-feed-terminated lines of a table, cell texts
    written as they are. *)
Definition plain_lines (table : list (list cell)) : string :=
  foldr (fun row out =>
           join (chr TAB) (map field_text row) +:+ chr LF +:+ out)
        EmptyString table.

(** A trivial TSV splitter: the text is split on line feeds, the piece
    after the last terminator is dropped, and each line is split on
    tabs. *)
Definition parse_tsv (out : string) : list (list string) :=
  map (split (chr TAB)) (removelast (split (chr LF) out)).

(** A cell text that the writer copies unchanged: no tab, double quote,
    line feed or NUL. *)
Definition plain_text (s : string) : bool :=
  negb (has_char TAB s) && negb (has_char DQUOTE s)
  && negb (has_char LF s) && negb (has_char NUL s).

(** A row of plain cells that is not empty and is not a single empty
    cell. *)
Definition plain_row (row : list cell) : bool :=
  forallb (fun f => plain_text (field_text f)) row
  && match row with
     | [] => false
     | [f] => negb (bool_decide (field_text f = EmptyString))
     | _ => true
     end.

(** Sample tables: a cell with a tab and a double quote, and a cell with
    double quotes only. *)
Definition tab_quote_cell : string := "x" +:+ chr TAB +:+ chr DQUOTE +:+ "y".

Definition tab_quote_table : list (list cell) :=
  [ [Some "note"]; [Some tab_quote_cell] ].

Definition quoted_note : string := "say " +:+ chr DQUOTE +:+ "hi" +:+ chr DQUOTE.

Definition quoted_note_table : list (list cell) :=
  [ [Some "id"; Some "note"]; [Some "s1"; Some quoted_note] ].

Definition fasting_table : list (list cell) :=
  [ [Some "#SampleID"; Some "Treatment"; Some "Description"];
    [Some "#Example mapping file"];
    [Some "PC.354"; Some "Control"; None];
    [Some "PC.607"; Some "Fast"; Some "Fasting_mouse_I.D._607"] ].

(** The pages of a feed, in the order the next links give them. *)
Fixpoint feed_pages {A : Type} (feed : Feed A) : list (list A) :=
  match feed with
  | LastPage e => [e]
  | LinkedPage e next => e :: feed_pages next
  end.

(** How often [c] is found in [l]. *)
Definition occurrences (c : string) (l : list string) : nat :=
  length (filter (fun x => x = c) l).

(** The name given to the occurrence number [k] (from 0) of the
    sanitized header [c]. *)
Definition numbered_name (c : string) (k : nat) : string :=
  if (0 <? k)%nat then c +:+ "_" +:+ str_of_nat k else c.

(** The names of the sanitized headers [cs], met after those of [seen]. *)
Fixpoint number_after (seen cs : list string) : list string :=
  match cs with
  | [] => []
  | c :: cs' => numbered_name c (occurrences c seen) :: number_after (seen ++ [c]) cs'
  end.

(** Every character of [s] passes [P]. *)
Fixpoint all_chars (P : ascii -> bool) (s : string) : bool :=
  match s with
  | EmptyString => true
  | String c s' => P c && all_chars P s'
  end.

(** A character that a sanitized header can hold: not an upper-case
    letter and none of [_], [:], space and [#]. *)
Definition sanitized_char (c : ascii) : bool :=
  negb (is_upper c)
  && negb (bool_decide (c = "_"%char)) && negb (bool_decide (c = ":"%char))
  && negb (bool_decide (c = " "%char)) && negb (bool_decide (c = "#"%char)).

(** The line of a comment row: its first cell alone. *)
Definition comment_line (c : string) (row : Row) : list cell :=
  match row !! c with
  | Some cell_data => [cell_data]
  | None => []
  end.

(** [line] is what a row can be exported as: one cell per header, each
    the cell of the row under the cleaned header, or the first cell alone
    when it is text that starts with [#] after leading whitespace. *)
Definition exported_line (hcs : list (string * string)) (row : Row)
    (line : list cell) : Prop :=
  Forall2 (fun hc cell_data => row !! hc.2 = Some cell_data) hcs line
  \/ exists h c hcs' text,
       hcs = (h, c) :: hcs' /\ row !! c = Some (Some text)
       /\ startswith "#" (lstrip text) = true /\ line = [Some text].

(** Sample services: a list feed of two pages, and a server that fails
    in another way than name resolution. *)
Definition two_pages_service : SpreadsheetsService :=
  {| GetWorksheetsFeed := fun _ => Return [sheet_od6];
     GetCellsFeed := fun _ _ => LastPage ["a"; "b"];
     GetListFeed := fun _ _ =>
       LinkedPage [ {[ "a" := Some "x"; "b" := Some "y" ]} ]
         (LastPage [ {[ "a" := Some "u"; "b" := Some "v" ]} ]) |}.

Definition broken_service : SpreadsheetsService :=
  {| GetWorksheetsFeed := fun _ => Raise (AttributeError "no attribute 'entry'");
     GetCellsFeed := fun _ _ => LastPage [];
     GetListFeed := fun _ _ => LastPage [] |}.

Definition blank_first_cell_service : SpreadsheetsService :=
  {| GetWorksheetsFeed := fun _ => Return [sheet_od6];
     GetCellsFeed := fun _ _ => LastPage ["a"; "b"];
     GetListFeed := fun _ _ =>
       LastPage [ {[ "a" := Some "#note"; "b" := None ]};
                  {[ "a" := None; "b" := Some "y" ]} ] |}.

Definition comments_only_service : SpreadsheetsService :=
  {| GetWorksheetsFeed := fun _ => Return [sheet_od6];
     GetCellsFeed := fun _ _ => LastPage ["a"; "b"];
     GetListFeed := fun _ _ =>
       LastPage [ {[ "a" := Some "#one"; "b" := None ]};
                  {[ "a" := Some " # two" ]} ] |}.

(** [s.replace(old, new)] for a non-empty [old]: the pieces between the
    occurrences of [old], joined by [new]. *)
Definition py_replace (old new s : string) : string :=
  join new (split old s).

(** A cell text that is written between double quotes: it holds a tab,
    a double quote or a line feed, or it is the empty only cell of its
    row. *)
Definition must_quote (lone : bool) (text : string) : bool :=
  has_char TAB text || has_char DQUOTE text || has_char LF text
  || (lone && bool_decide (text = EmptyString)).

(** A cell as the output shows it: its text up to the first NUL, as it
    is, or between double quotes with each double quote doubled. *)
Definition rendered_field (lone : bool) (f : cell) : string :=
  let text := truncate_at NUL (field_text f) in
  if must_quote lone text
  then chr DQUOTE +:+ py_replace (chr DQUOTE) (chr DQUOTE +:+ chr DQUOTE) text
       +:+ chr DQUOTE
  else text.

(** One record per row: the rendered cells joined by tabs, then a line
    feed. *)
Definition rendered_lines (table : list (list cell)) : string :=
  foldr (fun row out =>
           join (chr TAB)
             (map (rendered_field (bool_decide (length row = 1))) row)
           +:+ chr LF +:+ out)
        EmptyString table.

(** A table with a tab in a cell that holds no double quote. *)
Definition tab_cell : string := "x" +:+ chr TAB +:+ "y".

Definition tab_table : list (list cell) :=
  [ [Some "id"; Some "note"]; [Some "s1"; Some tab_cell] ].

(** * Properties *)

(** ** Strings *)

(** String concatenation does not unfold under [simpl]; its equations
    are stated for rewriting. *)
Lemma app_empty_l (s : string) : "" +:+ s = s.
Proof. reflexivity. Qed.

Lemma app_String_l (c : ascii) (s t : string) :
  String c s +:+ t = String c (s +:+ t).
Proof. reflexivity. Qed.

Lemma app_empty_r (s : string) : s +:+ "" = s.
Proof.
  induction s as [|c s IH]; [reflexivity|].
  rewrite app_String_l, IH. reflexivity.
Qed.

Lemma app_assoc_str (a b c : string) : (a +:+ b) +:+ c = a +:+ (b +:+ c).
Proof.
  induction a as [|x a IH]; [reflexivity|].
  rewrite !app_String_l, IH. reflexivity.
Qed.

Lemma length_app_str (a b : string) :
  String.length (a +:+ b) = String.length a + String.length b.
Proof.
  induction a as [|x a IH]; [reflexivity|].
  rewrite app_String_l. simpl. rewrite IH. reflexivity.
Qed.

Lemma has_char_app (c : ascii) (a b : string) :
  has_char c (a +:+ b) = has_char c a || has_char c b.
Proof.
  induction a as [|x a IH]; [reflexivity|].
  rewrite app_String_l. simpl. destruct (decide (x = c)); auto.
Qed.

(** ** Header Cleaner *)

Section CleanedHeaders.

Lemma replace_with_empty_removes (old : ascii) (s : string) :
  has_char old (replace_with_empty old s) = false.
Proof.
  induction s as [|c s IH]; simpl; [reflexivity|].
  destruct (decide (c = old)) as [->|Hne]; [exact IH|].
  simpl. destruct (decide (c = old)); [contradiction|exact IH].
Qed.

Lemma replace_with_empty_keeps_absent (c old : ascii) (s : string) :
  has_char c s = false -> has_char c (replace_with_empty old s) = false.
Proof.
  induction s as [|x s IH]; simpl; [reflexivity|].
  destruct (decide (x = c)) as [->|Hxc]; [discriminate|].
  intros H. destruct (decide (x = old)); [auto|].
  simpl. destruct (decide (x = c)); [contradiction|auto].
Qed.

Lemma sanitize_no_underscore (header : string) :
  has_char "_" (sanitize header) = false.
Proof.
  unfold sanitize.
  do 3 apply replace_with_empty_keeps_absent.
  apply replace_with_empty_removes.
Qed.

(** The decimal rendering of a count determines the count. *)
Lemma str_of_nat_inj (n m : nat) : str_of_nat n = str_of_nat m -> n = m.
Proof.
  unfold str_of_nat. intros H.
  apply DecimalNat.Unsigned.to_uint_inj.
  assert (Hs : Some (Nat.to_uint n) = Some (Nat.to_uint m))
    by (rewrite <- !NilEmpty.usu, H; reflexivity).
  congruence.
Qed.

(** A name with no underscore followed by ["_"] and a suffix reads back
    in one way only. *)
Lemma numbered_inj (a b x y : string) :
  has_char "_" a = false -> has_char "_" b = false ->
  a +:+ "_" +:+ x = b +:+ "_" +:+ y -> a = b /\ x = y.
Proof.
  revert b; induction a as [|c a IH]; intros [|d b]; simpl;
    rewrite ?app_empty_l, ?app_String_l, ?app_empty_l.
  - intros _ _ [= ->]. auto.
  - destruct (decide (d = "_"%char)) as [->|Hd]; [discriminate|].
    intros _ _ [= <-]. contradiction.
  - destruct (decide (c = "_"%char)) as [->|Hc]; [discriminate|].
    intros _ _ [= ->]. contradiction.
  - destruct (decide (c = "_"%char)); [discriminate|].
    destruct (decide (d = "_"%char)); [discriminate|].
    intros Ha Hb [= -> Heq]. destruct (IH b Ha Hb Heq) as [-> ->]. auto.
Qed.

Lemma count_of_insert (m : gmap string nat) (c c' : string) (n : nat) :
  count_of (<[c := n]> m) c' = if decide (c = c') then n else count_of m c'.
Proof.
  unfold count_of. destruct (decide (c = c')) as [->|Hne].
  - rewrite lookup_insert_eq. reflexivity.
  - rewrite lookup_insert_ne by done. reflexivity.
Qed.

Lemma numbering_inv_step st header c :
  has_char "_" c = false ->
  numbering_inv st -> numbering_inv (number_header st (header, c)).
Proof.
  destruct st as [m rs]. intros Hc (Hnd & Hmem & Hzero). unfold number_header.
  simpl in *.
  assert (Hnew_under : has_char "_" (c +:+ "_" +:+ str_of_nat (count_of m c)) = true).
  { rewrite !has_char_app. simpl. rewrite Hc. reflexivity. }
  set (n := count_of m c) in *.
  set (new_header := if (0 <? n)%nat then c +:+ "_" +:+ str_of_nat n else c).
  assert (Hfresh : new_header ∉ rs).
  { subst new_header. destruct (0 <? n)%nat eqn:Hn.
    - apply Nat.ltb_lt in Hn. intros Hin.
      destruct (Hmem _ Hin) as [[Hu _]|(c' & k & Heq & Hc' & Hk)].
      + congruence.
      + apply numbered_inj in Heq as [-> Hk']; [|assumption..].
        apply str_of_nat_inj in Hk'. subst n. lia.
    - apply Nat.ltb_ge in Hn. apply Hzero; [assumption|lia]. }
  repeat split; simpl.
  - apply NoDup_app. repeat split; [assumption| |apply NoDup_singleton].
    intros x Hx ->%list_elem_of_singleton. contradiction.
  - intros r [Hr| ->%list_elem_of_singleton]%elem_of_app.
    + destruct (Hmem _ Hr) as [[Hu Hpos]|(c' & k & Heq & Hc' & Hk)].
      * left. split; [assumption|]. rewrite count_of_insert.
        destruct (decide (c = r)); lia.
      * right. exists c', k. repeat split; try assumption; try lia.
        rewrite count_of_insert. destruct (decide (c = c')); subst; lia.
    + subst new_header. destruct (0 <? n)%nat eqn:Hn.
      * apply Nat.ltb_lt in Hn. right. exists c, n.
        rewrite count_of_insert, decide_True by done. repeat split; auto; lia.
      * left. split; [assumption|].
        rewrite count_of_insert, decide_True by done. lia.
  - intros c' Hc'. rewrite count_of_insert.
    destruct (decide (c = c')) as [->|Hne]; [lia|].
    intros Hz [Hin| ->%list_elem_of_singleton]%elem_of_app.
    + exact (Hzero _ Hc' Hz Hin).
    + subst new_header. destruct (0 <? n)%nat; congruence.
Qed.

Lemma numbering_inv_foldl (hcs : list (string * string)) st :
  Forall (fun hc => has_char "_" hc.2 = false) hcs ->
  numbering_inv st -> numbering_inv (foldl number_header st hcs).
Proof.
  revert st; induction hcs as [|[h c] hcs IH]; intros st Hall Hinv; simpl.
  - exact Hinv.
  - inversion Hall; subst. apply IH; [assumption|].
    apply numbering_inv_step; assumption.
Qed.

Lemma number_header_length (hcs : list (string * string)) st :
  length (foldl number_header st hcs).2 = length st.2 + length hcs.
Proof.
  revert st; induction hcs as [|[h c] hcs IH]; intros [m rs]; simpl; [lia|].
  rewrite IH. simpl. rewrite length_app. simpl. lia.
Qed.

Lemma cleaned_headers_length (headers : list string) :
  length (_get_cleaned_headers headers) = length headers.
Proof.
  unfold _get_cleaned_headers. rewrite number_header_length. simpl.
  rewrite length_zip, length_map. lia.
Qed.

End CleanedHeaders.

(** C1: for every sequence of header strings, [_get_cleaned_headers]
    returns as many names as it received headers, and the returned names
    are pairwise distinct. *)
Theorem cleaned_headers_length_distinct (headers : list string) :
  length (_get_cleaned_headers headers) = length headers
  /\ NoDup (_get_cleaned_headers headers).
Proof.
  unfold _get_cleaned_headers. split.
  - rewrite number_header_length. simpl.
    rewrite length_zip, length_map. lia.
  - apply (numbering_inv_foldl _ (∅, [])).
    + apply Forall_forall. intros [h c] Hin.
      apply elem_of_zip_r in Hin. apply list_elem_of_fmap in Hin as (h' & -> & _).
      apply sanitize_no_underscore.
    + repeat split; simpl.
      * apply NoDup_nil_2.
      * intros r Hr. inversion Hr.
      * intros c _ _ Hr. inversion Hr.
Qed.

(** C4: the two reference runs of [_get_cleaned_headers]. *)
Theorem cleaned_headers_reference_cases :
  _get_cleaned_headers ["foo"; "Foo"; "FOO"; "F_oO"; "F:Oo_o"; "#Foo"; "f O O#"]
  = ["foo"; "foo_1"; "foo_2"; "foo_3"; "fooo"; "foo_4"; "foo_5"]
  /\ _get_cleaned_headers ["Fo#o"; "bar"] = ["foo"; "bar"].
Proof. split; vm_compute; reflexivity. Qed.

(** ** Key Extractor *)

Section Split.

Lemma strip_prefix_Some (p s r : string) :
  strip_prefix p s = Some r <-> s = p +:+ r.
Proof.
  revert s; induction p as [|a p IH]; intros s; simpl.
  - rewrite app_empty_l. split; congruence.
  - rewrite app_String_l. destruct s as [|b s]; [split; discriminate|].
    destruct (decide (a = b)) as [->|Hab].
    + rewrite IH. split; [intros ->; reflexivity | congruence].
    + split; [discriminate | congruence].
Qed.

Lemma partition_Some (sep s before after : string) :
  partition sep s = Some (before, after) -> s = before +:+ sep +:+ after.
Proof.
  revert before; induction s as [|c s IH]; intros before; simpl.
  - destruct (strip_prefix sep "") as [r|] eqn:E; [|discriminate].
    intros [= <- <-]. apply strip_prefix_Some in E. exact E.
  - destruct (strip_prefix sep (String c s)) as [r|] eqn:E.
    + intros [= <- <-]. apply strip_prefix_Some in E. exact E.
    + destruct (partition sep s) as [[b a]|]; [|discriminate].
      intros [= <- <-]. rewrite app_String_l. f_equal. apply IH. reflexivity.
Qed.

Lemma partition_None (sep s : string) :
  partition sep s = None -> ~ occurs sep s.
Proof.
  induction s as [|c s IH]; simpl.
  - destruct (strip_prefix sep "") as [r|] eqn:E; [discriminate|].
    intros _ ([|x b] & a & Heq); [|discriminate].
    rewrite app_empty_l in Heq.
    apply strip_prefix_Some in Heq. congruence.
  - destruct (strip_prefix sep (String c s)) as [r|] eqn:E; [discriminate|].
    destruct (partition sep s) as [[b a]|]; [discriminate|].
    intros _ ([|x b] & a & Heq).
    + rewrite app_empty_l in Heq. apply strip_prefix_Some in Heq. congruence.
    + rewrite app_String_l in Heq. injection Heq as -> Heq.
      apply IH; [reflexivity|]. exists b, a. exact Heq.
Qed.

Lemma contains_occurs (sub s : string) :
  contains sub s = true <-> occurs sub s.
Proof.
  unfold contains. rewrite bool_decide_eq_true. split.
  - intros [[b a] H]. apply partition_Some in H. exists b, a. exact H.
  - intros Hocc. destruct (partition sub s) as [p|] eqn:E; [eauto|].
    apply partition_None in E. contradiction.
Qed.

Lemma contains_false (sub s : string) :
  contains sub s = false <-> ~ occurs sub s.
Proof.
  rewrite <- contains_occurs. destruct (contains sub s); split; done.
Qed.

(** The defining equation of [split]. *)
Lemma split_unfold (sep s : string) :
  sep <> "" ->
  split sep s = match partition sep s with
                | Some (before, after) => before :: split sep after
                | None => [s]
                end.
Proof.
  intros Hsep. funelim (split sep s).
  - rewrite e. reflexivity.
  - contradiction.
  - rewrite E. reflexivity.
Qed.

Lemma split_not_nil (sep s : string) : split sep s <> [].
Proof. funelim (split sep s); discriminate. Qed.

Lemma last_item_cons (x : string) (l : list string) :
  l <> [] -> last_item (x :: l) = last_item l.
Proof. destruct l; [contradiction|reflexivity]. Qed.

(** The last piece of a split holds no separator, and is the whole string
    or what follows one of its separators. *)
Lemma last_split (sep : string) (n : nat) (s : string) :
  sep <> "" -> String.length s <= n ->
  ~ occurs sep (last_item (split sep s))
  /\ ((~ occurs sep s /\ last_item (split sep s) = s)
      \/ exists p, s = p +:+ sep +:+ last_item (split sep s)).
Proof.
  intros Hsep. revert s. induction n as [|n IH]; intros s Hlen.
  - rewrite split_unfold by assumption.
    destruct (partition sep s) as [[b a]|] eqn:E.
    + apply partition_Some in E. subst s. rewrite !length_app_str in Hlen.
      destruct sep; [contradiction|]. simpl in Hlen. lia.
    + apply partition_None in E. simpl. auto.
  - rewrite split_unfold by assumption.
    destruct (partition sep s) as [[b a]|] eqn:E.
    + rewrite last_item_cons by apply split_not_nil.
      pose proof (partition_Some _ _ _ _ E) as Hs.
      assert (Ha : String.length a <= n).
      { subst s. rewrite !length_app_str in Hlen.
        destruct sep; [contradiction|]. simpl in Hlen. lia. }
      destruct (IH a Ha) as [Hno Hshape]. split; [exact Hno|]. right.
      destruct Hshape as [[_ Hlast]|[p Hp]].
      * exists b. rewrite Hlast. exact Hs.
      * exists (b +:+ sep +:+ p). rewrite Hs at 1. rewrite Hp at 1.
        rewrite !app_assoc_str. reflexivity.
    + apply partition_None in E. simpl. auto.
Qed.

Lemma first_split_char (c : ascii) (s : string) :
  first_item (split (chr c) s) = truncate_at c s.
Proof.
  rewrite split_unfold by discriminate.
  assert (H : match partition (chr c) s with
              | Some (b, _) => b = truncate_at c s
              | None => s = truncate_at c s
              end).
  { induction s as [|a s IH]; simpl; [reflexivity|].
    destruct (decide (c = a)) as [->|Hne].
    - rewrite decide_True by done. reflexivity.
    - rewrite decide_False by congruence.
      destruct (partition (chr c) s) as [[b r]|]; simpl; congruence. }
  destruct (partition (chr c) s) as [[b r]|]; simpl; auto.
Qed.

Lemma truncate_at_prefix (c : ascii) (s : string) :
  exists rest, s = truncate_at c s +:+ rest.
Proof.
  induction s as [|a s [rest IH]]; simpl.
  - exists "". reflexivity.
  - destruct (decide (a = c)).
    + exists (String a s). reflexivity.
    + exists rest. rewrite app_String_l. congruence.
Qed.

Lemma occurs_prefix (sub s rest : string) :
  occurs sub s -> occurs sub (s +:+ rest).
Proof.
  intros (b & a & ->). exists b, (a +:+ rest).
  rewrite !app_assoc_str. reflexivity.
Qed.

Lemma not_occurs_truncate (sub : string) (c : ascii) (s : string) :
  ~ occurs sub s -> ~ occurs sub (truncate_at c s).
Proof.
  intros Hno Hocc. apply Hno.
  destruct (truncate_at_prefix c s) as [rest Hs]. rewrite Hs.
  apply occurs_prefix. exact Hocc.
Qed.

(** Two ways of cutting one string: the longer head extends the other. *)
Lemma app_eq_longer (a b c d : string) :
  a +:+ b = c +:+ d -> String.length a < String.length c ->
  exists x q, c = a +:+ String x q /\ b = String x q +:+ d.
Proof.
  revert c; induction a as [|x a IH]; intros [|y c]; simpl;
    rewrite ?app_empty_l, ?app_String_l; try lia.
  - intros -> _. exists y, c. split; reflexivity.
  - intros [= -> Heq] Hlen. destruct (IH c Heq) as (z & q & -> & ->); [lia|].
    exists z, q. split; reflexivity.
Qed.

(** ["key="] does not overlap itself: past an occurrence, the next one
    starts in what follows it. *)
Lemma key_eq_last (s p r : string) :
  s = p +:+ "key=" +:+ r -> ~ occurs "key=" r ->
  after_last_occurrence "key=" s r.
Proof.
  intros Hs Hno. exists p. split; [exact Hs|].
  intros p' r' Hs'. destruct (Nat.le_gt_cases (String.length p') (String.length p))
    as [Hle|Hgt]; [exact Hle|exfalso].
  rewrite Hs in Hs'.
  destruct (app_eq_longer _ _ _ _ Hs' Hgt) as (x & q & -> & Heq).
  rewrite !app_String_l, ?app_empty_l in Heq.
  injection Heq as <- Heq.
  destruct q as [|x1 q]; rewrite ?app_String_l, ?app_empty_l in Heq;
    [discriminate|]. injection Heq as <- Heq.
  destruct q as [|x2 q]; rewrite ?app_String_l, ?app_empty_l in Heq;
    [discriminate|]. injection Heq as <- Heq.
  destruct q as [|x3 q]; rewrite ?app_String_l, ?app_empty_l in Heq;
    [discriminate|]. injection Heq as <- Heq.
  apply Hno. exists q, r'. exact Heq.
Qed.

End Split.

Lemma extract_key_with_key (url : string) :
  occurs "key=" url ->
  _extract_spreadsheet_key_from_url url
  = truncate_at "&" (truncate_at "#" (last_item (split "key=" url))).
Proof.
  intros H%contains_occurs. unfold _extract_spreadsheet_key_from_url.
  rewrite H. rewrite (first_split_char "&"), (first_split_char "#").
  reflexivity.
Qed.

Lemma extract_key_without_key (url : string) :
  ~ occurs "key=" url -> _extract_spreadsheet_key_from_url url = url.
Proof.
  intros H%contains_false. unfold _extract_spreadsheet_key_from_url.
  rewrite H. reflexivity.
Qed.

Lemma extract_key_has_no_key (url : string) :
  ~ occurs "key=" (_extract_spreadsheet_key_from_url url).
Proof.
  destruct (contains "key=" url) eqn:E.
  - apply contains_occurs in E. rewrite (extract_key_with_key _ E).
    do 2 apply not_occurs_truncate.
    apply (last_split "key=" (String.length url)); [discriminate|lia].
  - apply contains_false in E. rewrite (extract_key_without_key _ E). exact E.
Qed.

(** C5: when the input holds ["key="], the key extractor returns what
    follows the last occurrence of ["key="], truncated at the first [#]
    and then at the first [&]; otherwise it returns its input. *)
Theorem extract_key_spec (url : string) :
  (occurs "key=" url ->
   exists rest,
     after_last_occurrence "key=" url rest
     /\ _extract_spreadsheet_key_from_url url
        = truncate_at "&" (truncate_at "#" rest))
  /\ (~ occurs "key=" url -> _extract_spreadsheet_key_from_url url = url).
Proof.
  split; [|apply extract_key_without_key].
  intros Hocc. exists (last_item (split "key=" url)).
  split; [|apply extract_key_with_key; exact Hocc].
  destruct (last_split "key=" (String.length url) url) as [Hno Hshape];
    [discriminate|lia|].
  destruct Hshape as [[Hnone _]|[p Hp]]; [contradiction|].
  apply (key_eq_last url p); assumption.
Qed.

Lemma extract_key_spec_witness :
  occurs "key=" "pub?key=0AnzKEY&output=html#gid=1"
  /\ exists rest,
       after_last_occurrence "key=" "pub?key=0AnzKEY&output=html#gid=1" rest
       /\ _extract_spreadsheet_key_from_url "pub?key=0AnzKEY&output=html#gid=1"
          = truncate_at "&" (truncate_at "#" rest).
Proof.
  assert (H : occurs "key=" "pub?key=0AnzKEY&output=html#gid=1")
    by (exists "pub?", "0AnzKEY&output=html#gid=1"; reflexivity).
  split; [exact H|].
  exact (proj1 (extract_key_spec "pub?key=0AnzKEY&output=html#gid=1") H).
Defined.

(** The reference runs of the key extractor. *)
Example extract_key_reference_cases :
  _extract_spreadsheet_key_from_url "0AnzKEY" = "0AnzKEY"
  /\ _extract_spreadsheet_key_from_url "https://docs/ccc?key=0AnzKEY#gid=1" = "0AnzKEY"
  /\ _extract_spreadsheet_key_from_url "https://docs/pub?key=0AnzKEY&output=html" = "0AnzKEY"
  /\ _extract_spreadsheet_key_from_url "https://docs/pub?key=0AnzKEY&output=html#gid=1" = "0AnzKEY"
  /\ _extract_spreadsheet_key_from_url "key=0AnzKEY" = "0AnzKEY".
Proof. repeat split; vm_compute; reflexivity. Qed.

(** C10: the key extractor is idempotent, because its result never holds
    ["key="]. *)
Theorem extract_key_idempotent (s : string) :
  ~ occurs "key=" (_extract_spreadsheet_key_from_url s)
  /\ _extract_spreadsheet_key_from_url (_extract_spreadsheet_key_from_url s)
     = _extract_spreadsheet_key_from_url s.
Proof.
  split; [apply extract_key_has_no_key|].
  apply extract_key_without_key, extract_key_has_no_key.
Qed.

(** ** Top-level loader *)

Section Loader.

Lemma search_no_match (name : string) (entries : list WorksheetEntry) acc :
  Forall (fun sheet => title_text sheet <> name) entries ->
  foldl (keep_match name) acc entries = acc.
Proof.
  revert acc; induction entries as [|e entries IH]; intros acc Hall; simpl.
  - reflexivity.
  - inversion Hall; subst. rewrite IH by assumption.
    unfold keep_match. rewrite decide_False by assumption. reflexivity.
Qed.

Lemma find_worksheet_absent (name : string) (entries : list WorksheetEntry) :
  Forall (fun sheet => title_text sheet <> name) entries ->
  find_worksheet name entries = None.
Proof. apply search_no_match. Qed.

Lemma find_worksheet_last (name : string) (pre post : list WorksheetEntry)
    (w : WorksheetEntry) :
  title_text w = name ->
  Forall (fun sheet => title_text sheet <> name) post ->
  find_worksheet name (pre ++ w :: post) = Some w.
Proof.
  intros Hw Hpost. unfold find_worksheet.
  rewrite foldl_app. simpl. unfold keep_match at 2. rewrite decide_True by assumption.
  apply (search_no_match name post (Some w) Hpost).
Qed.

Lemma occurs_middle (a key b : string) : occurs key (a +:+ key +:+ b).
Proof. exists a, b. reflexivity. Qed.

Lemma load_with_entries gd_client spreadsheet_key worksheet_name entries w :
  GetWorksheetsFeed gd_client (_extract_spreadsheet_key_from_url spreadsheet_key)
  = Return entries ->
  selected_worksheet worksheet_name entries = Some w ->
  load_google_spreadsheet_mapping_file gd_client spreadsheet_key worksheet_name
  = read_worksheet gd_client (_extract_spreadsheet_key_from_url spreadsheet_key) w.
Proof.
  intros Hfeed Hsel. unfold load_google_spreadsheet_mapping_file.
  rewrite Hfeed. simpl.
  destruct entries as [|first_entry rest].
  - destruct worksheet_name; discriminate.
  - destruct worksheet_name as [name|]; simpl in Hsel.
    + rewrite Hsel. reflexivity.
    + injection Hsel as ->. reflexivity.
Qed.

End Loader.

(** C7: the loader raises RemoteMappingFileError naming the key when the
    spreadsheet has no worksheet, naming the worksheet name and the key
    when no entry has the requested name, and when the fetched header
    list is empty; a name-resolution failure of the first request is
    raised as RemoteMappingFileConnectionError, which is not the plain
    error. *)
Theorem load_error_cases (gd_client : SpreadsheetsService)
    (spreadsheet_key : string) (worksheet_name : option string) :
  let key := _extract_spreadsheet_key_from_url spreadsheet_key in
  let loaded :=
    load_google_spreadsheet_mapping_file gd_client spreadsheet_key worksheet_name in
  (GetWorksheetsFeed gd_client key = Return [] ->
   loaded = Raise (RemoteMappingFileError (no_worksheets_msg key))
   /\ occurs key (no_worksheets_msg key))
  /\ (forall entries name,
        GetWorksheetsFeed gd_client key = Return entries ->
        entries <> [] ->
        worksheet_name = Some name ->
        Forall (fun sheet => title_text sheet <> name) entries ->
        loaded = Raise (RemoteMappingFileError (worksheet_not_found_msg name key))
        /\ occurs name (worksheet_not_found_msg name key)
        /\ occurs key (worksheet_not_found_msg name key))
  /\ (forall entries worksheet,
        GetWorksheetsFeed gd_client key = Return entries ->
        selected_worksheet worksheet_name entries = Some worksheet ->
        _get_spreadsheet_headers gd_client key (worksheet_id_of worksheet) = [] ->
        loaded = Raise (RemoteMappingFileError (empty_header_msg key)))
  /\ (GetWorksheetsFeed gd_client key = Raise gaierror ->
      loaded = Raise (RemoteMappingFileConnectionError connection_msg)
      /\ isinstance_RemoteMappingFileConnectionError
           (RemoteMappingFileConnectionError connection_msg) = true
      /\ forall msg,
           RemoteMappingFileConnectionError connection_msg
           <> RemoteMappingFileError msg).
Proof.
  intros key loaded. subst loaded. repeat split.
  - unfold load_google_spreadsheet_mapping_file. fold key. rewrite H. reflexivity.
  - apply occurs_middle.
  - unfold load_google_spreadsheet_mapping_file. fold key. rewrite H. simpl.
    destruct entries as [|e entries]; [contradiction|].
    subst worksheet_name. rewrite find_worksheet_absent by assumption.
    reflexivity.
  - apply occurs_middle.
  - unfold worksheet_not_found_msg.
    rewrite <- (app_assoc_str _ "' could not be found in the Google Spreadsheet with key '").
    rewrite <- (app_assoc_str "The worksheet name '").
    apply occurs_middle.
  - intros entries w Hfeed Hsel Hempty.
    rewrite (load_with_entries _ _ _ _ _ Hfeed Hsel). fold key.
    unfold read_worksheet. rewrite Hempty. reflexivity.
  - unfold load_google_spreadsheet_mapping_file. fold key. rewrite H. reflexivity.
  - discriminate.
Qed.

Lemma load_error_cases_witness :
  load_google_spreadsheet_mapping_file no_sheets_service "pub?key=K&output=html" None
  = Raise (RemoteMappingFileError (no_worksheets_msg "K"))
  /\ load_google_spreadsheet_mapping_file two_maps_service "K" (Some "Fasting_Map")
     = Raise (RemoteMappingFileError (worksheet_not_found_msg "Fasting_Map" "K"))
  /\ load_google_spreadsheet_mapping_file two_maps_service "K" (Some "Blank")
     = Raise (RemoteMappingFileError (empty_header_msg "K"))
  /\ load_google_spreadsheet_mapping_file offline_service "K" None
     = Raise (RemoteMappingFileConnectionError connection_msg).
Proof.
  split; [|split; [|split]].
  - apply (load_error_cases no_sheets_service "pub?key=K&output=html" None).
    reflexivity.
  - apply (proj1 (proj2 (load_error_cases two_maps_service "K" (Some "Fasting_Map")))
             [sheet_od6; sheet_od7; sheet_blank] "Fasting_Map");
      [reflexivity|discriminate|reflexivity|].
    repeat constructor; discriminate.
  - apply (proj1 (proj2 (proj2 (load_error_cases two_maps_service "K" (Some "Blank"))))
             [sheet_od6; sheet_od7; sheet_blank] sheet_blank); reflexivity.
  - apply (load_error_cases offline_service "K" None). reflexivity.
Defined.

Lemma collect_header_pages_concat (feed : Feed string) (headers : list string) :
  collect_header_pages feed headers = headers ++ concat (feed_pages feed).
Proof.
  revert headers; induction feed as [e|e next IH]; intros headers; simpl.
  - rewrite app_nil_r. reflexivity.
  - rewrite IH, <- app_assoc. reflexivity.
Qed.

Lemma has_char_occurs (c : ascii) (s : string) :
  has_char c s = true -> occurs (chr c) s.
Proof.
  induction s as [|a s IH]; simpl; [discriminate|].
  destruct (decide (a = c)) as [->|Hne].
  - intros _. exists "", s. reflexivity.
  - intros (p & q & ->)%IH. exists (String a p), q. reflexivity.
Qed.

Lemma read_worksheet_fetches (client : SpreadsheetsService)
    (key : string) (w : WorksheetEntry) :
  read_worksheet client key w
  = match _get_spreadsheet_headers client key (last_item (split "/" (id_text w))) with
    | [] => Raise (RemoteMappingFileError (empty_header_msg key))
    | headers =>
        mapping_lines ←
          _export_mapping_file client key (last_item (split "/" (id_text w))) headers;
        Return (writerows mapping_lines)
    end.
Proof.
  unfold read_worksheet, worksheet_id_of.
  destruct (_get_spreadsheet_headers client key (last_item (split "/" (id_text w))));
    reflexivity.
Qed.

Lemma export_under_id (client : SpreadsheetsService)
    (key worksheet_id : string) (headers : list string) :
  _export_mapping_file client key worksheet_id headers
  = export_pages headers (_get_cleaned_headers headers)
      (GetListFeed client key worksheet_id) [map Some headers].
Proof. reflexivity. Qed.

Lemma headers_under_id (client : SpreadsheetsService) (key worksheet_id : string) :
  _get_spreadsheet_headers client key worksheet_id
  = concat (feed_pages (GetCellsFeed client key worksheet_id)).
Proof.
  unfold _get_spreadsheet_headers. rewrite collect_header_pages_concat.
  reflexivity.
Qed.

Lemma last_segment_no_slash (s : string) :
  has_char "/" (last_item (split "/" s)) = false.
Proof.
  destruct (last_split "/" (String.length s) s) as [Hno _]; [discriminate|lia|].
  destruct (has_char "/" (last_item (split "/" s))) eqn:E; [|reflexivity].
  apply has_char_occurs in E. contradiction.
Qed.

(** C9: when several worksheet entries have the requested title, the
    loader takes the last of them in feed order.  The worksheet ID is
    the last [/]-segment of that entry's id text, and every later fetch
    is made under it: the header cells are those of the cells feed of
    that ID, the rows those of the list feed of that ID, and the result
    is the serialized export of these rows (or the empty-header error);
    the feeds of other IDs have no part in it. *)
Theorem load_takes_last_matching_worksheet (gd_client : SpreadsheetsService)
    (spreadsheet_key name : string) (pre post : list WorksheetEntry)
    (w : WorksheetEntry) :
  let key := _extract_spreadsheet_key_from_url spreadsheet_key in
  let worksheet_id := last_item (split "/" (id_text w)) in
  GetWorksheetsFeed gd_client key = Return (pre ++ w :: post) ->
  title_text w = name ->
  Forall (fun sheet => title_text sheet <> name) post ->
  find_worksheet name (pre ++ w :: post) = Some w
  /\ has_char "/" worksheet_id = false
  /\ load_google_spreadsheet_mapping_file gd_client spreadsheet_key (Some name)
     = match _get_spreadsheet_headers gd_client key worksheet_id with
       | [] => Raise (RemoteMappingFileError (empty_header_msg key))
       | headers =>
           mapping_lines ←
             _export_mapping_file gd_client key worksheet_id headers;
           Return (writerows mapping_lines)
       end
  /\ _get_spreadsheet_headers gd_client key worksheet_id
     = concat (feed_pages (GetCellsFeed gd_client key worksheet_id))
  /\ (forall headers,
        _export_mapping_file gd_client key worksheet_id headers
        = export_pages headers (_get_cleaned_headers headers)
            (GetListFeed gd_client key worksheet_id) [map Some headers])
  /\ forall other : SpreadsheetsService,
       GetWorksheetsFeed other key = Return (pre ++ w :: post) ->
       GetCellsFeed other key worksheet_id
       = GetCellsFeed gd_client key worksheet_id ->
       GetListFeed other key worksheet_id
       = GetListFeed gd_client key worksheet_id ->
       load_google_spreadsheet_mapping_file other spreadsheet_key (Some name)
       = load_google_spreadsheet_mapping_file gd_client spreadsheet_key (Some name).
Proof.
  intros key worksheet_id Hfeed Hw Hpost.
  pose proof (find_worksheet_last name pre post w Hw Hpost) as Hfind.
  assert (Hload : forall client,
            GetWorksheetsFeed client key = Return (pre ++ w :: post) ->
            load_google_spreadsheet_mapping_file client spreadsheet_key (Some name)
            = match _get_spreadsheet_headers client key worksheet_id with
              | [] => Raise (RemoteMappingFileError (empty_header_msg key))
              | headers =>
                  mapping_lines ←
                    _export_mapping_file client key worksheet_id headers;
                  Return (writerows mapping_lines)
              end).
  { intros client Hc.
    rewrite (load_with_entries _ _ (Some name) _ _ Hc Hfind).
    apply read_worksheet_fetches. }
  split; [exact Hfind|]. split; [apply last_segment_no_slash|].
  split; [apply Hload; exact Hfeed|]. split; [apply headers_under_id|].
  split; [intros headers; apply export_under_id|].
  intros other Hother Hcells Hrows.
  rewrite (Hload other Hother), (Hload gd_client Hfeed).
  rewrite !headers_under_id, Hcells.
  destruct (concat (feed_pages (GetCellsFeed gd_client key worksheet_id)));
    [reflexivity|].
  rewrite !export_under_id, Hrows. reflexivity.
Qed.

Lemma load_takes_last_matching_worksheet_witness :
  find_worksheet "Map" [sheet_od6; sheet_od7; sheet_blank] = Some sheet_od7
  /\ load_google_spreadsheet_mapping_file two_maps_service "K" (Some "Map")
     = (mapping_lines ←
          _export_mapping_file two_maps_service "K" "od7" ["#SampleID"; "Treatment"];
        Return (writerows mapping_lines)).
Proof.
  destruct (load_takes_last_matching_worksheet two_maps_service "K" "Map"
              [sheet_od6] [sheet_blank] sheet_od7) as (Hfind & _ & Hload & _).
  - reflexivity.
  - reflexivity.
  - repeat constructor. discriminate.
  - split; [exact Hfind|]. etrans; [exact Hload|]. reflexivity.
Defined.

Example load_two_maps :
  load_google_spreadsheet_mapping_file two_maps_service "K" (Some "Map")
  = Return ("#SampleID" +:+ chr TAB +:+ "Treatment" +:+ chr LF +:+
            "PC.354" +:+ chr TAB +:+ "Control" +:+ chr LF).
Proof. vm_compute. reflexivity. Qed.

(** ** Mapping Exporter *)

Section Exporter.

Lemma bind_Return {A B : Type} (a : A) (f : A -> result B) :
  (Return a ≫= f) = f a.
Proof. reflexivity. Qed.

Lemma bind_Raise {A B : Type} (e : exn) (f : A -> result B) :
  (Raise e ≫= f) = Raise e.
Proof. reflexivity. Qed.

Lemma bind_Return_inv {A B : Type} (m : result A) (f : A -> result B) (b : B) :
  (m ≫= f) = Return b -> exists a, m = Return a /\ f a = Return b.
Proof. destruct m as [a|e]; [eauto|discriminate]. Qed.

Lemma export_cells_plain row cols line found_data :
  past_comment_test cols found_data ->
  export_cells row cols line found_data
  = (cells ← lookup_cells row (cols.*2);
     Return (line ++ cells, match cols with [] => found_data | _ => true end)).
Proof.
  revert line found_data; induction cols as [|[idx [h c]] cols IH];
    intros line fd Hpast; simpl.
  - rewrite app_nil_r. reflexivity.
  - destruct (row !! c) as [cell_data|]; [|reflexivity].
    assert (Htest : negb fd && (idx =? 0)%nat = false).
    { destruct Hpast as [->|Hall]; [reflexivity|].
      inversion Hall; subst. simpl in *.
      destruct (Nat.eqb_spec idx 0); [contradiction|].
      apply andb_false_r. }
    rewrite Htest. rewrite IH by (left; reflexivity). clear IH. simpl.
    destruct (lookup_cells row _) as [cells|e]; [|reflexivity].
    simpl. rewrite <- app_assoc. simpl. destruct cols; reflexivity.
Qed.

Lemma enumerate_cons {A : Type} (x : A) (l : list A) :
  enumerate (x :: l) = (0, x) :: zip (seq 1 (length l)) l.
Proof. reflexivity. Qed.

Lemma zip_seq_positive {A : Type} (l : list A) (start : nat) :
  Forall (fun col => col.1 <> 0) (zip (seq (S start) (length l)) l).
Proof.
  revert start; induction l as [|x l IH]; intros start; simpl.
  - constructor.
  - constructor; [simpl; lia|apply IH].
Qed.

Lemma zip_seq_snd {A : Type} (l : list A) (start : nat) :
  (zip (seq start (length l)) l).*2 = l.
Proof.
  revert start; induction l as [|x l IH]; intros start; simpl.
  - reflexivity.
  - rewrite IH. reflexivity.
Qed.

(** One row, from the start of its columns. *)
Lemma export_row_found_data row hcs :
  export_cells row (enumerate hcs) [] true
  = (cells ← lookup_cells row hcs; Return (cells, true)).
Proof.
  rewrite export_cells_plain by (left; reflexivity).
  unfold enumerate. rewrite zip_seq_snd.
  destruct (lookup_cells row hcs); [|reflexivity]. simpl.
  destruct (zip _ _); reflexivity.
Qed.

Lemma export_row_comment row h c hcs text :
  row !! c = Some (Some text) -> startswith "#" (lstrip text) = true ->
  export_cells row (enumerate ((h, c) :: hcs)) [] false
  = Return ([Some text], false).
Proof.
  intros Hcell Hhash. rewrite enumerate_cons. simpl.
  rewrite Hcell, Hhash. reflexivity.
Qed.

Lemma export_row_data row h c hcs text :
  row !! c = Some (Some text) -> startswith "#" (lstrip text) = false ->
  export_cells row (enumerate ((h, c) :: hcs)) [] false
  = (cells ← lookup_cells row ((h, c) :: hcs); Return (cells, true)).
Proof.
  intros Hcell Hhash. rewrite enumerate_cons. simpl.
  rewrite Hcell, Hhash.
  rewrite export_cells_plain by (right; apply zip_seq_positive).
  rewrite zip_seq_snd.
  destruct (lookup_cells row hcs); [|reflexivity]. simpl.
  destruct (zip _ _); reflexivity.
Qed.

(** The flag after a row that was exported. *)
Lemma export_row_flag row h c hcs found_data line found_data' :
  export_cells row (enumerate ((h, c) :: hcs)) [] found_data
  = Return (line, found_data') ->
  found_data' = found_data || negb (starts_comment c row).
Proof.
  destruct found_data.
  - rewrite export_row_found_data.
    intros (cells & _ & [= _ <-])%bind_Return_inv. reflexivity.
  - unfold starts_comment. destruct (row !! c) as [[text|]|] eqn:Hcell.
    + destruct (startswith "#" (lstrip text)) eqn:Hhash.
      * rewrite (export_row_comment _ _ _ _ _ Hcell Hhash).
        intros [= _ <-]. reflexivity.
      * rewrite (export_row_data _ _ _ _ _ Hcell Hhash).
        intros (cells & _ & [= _ <-])%bind_Return_inv. reflexivity.
    + rewrite enumerate_cons. simpl. rewrite Hcell. discriminate.
    + rewrite enumerate_cons. simpl. rewrite Hcell. discriminate.
Qed.

Lemma export_rows_cons hs cs row rows mapping_lines found_data :
  export_rows hs cs (row :: rows) mapping_lines found_data
  = ('(line, found_data) ←
       export_cells row (enumerate (zip hs cs)) [] found_data;
     export_rows hs cs rows (mapping_lines ++ [line]) found_data).
Proof. reflexivity. Qed.

Lemma export_rows_app hs cs rows1 rows2 mapping_lines found_data :
  export_rows hs cs (rows1 ++ rows2) mapping_lines found_data
  = ('(mapping_lines, found_data) ←
       export_rows hs cs rows1 mapping_lines found_data;
     export_rows hs cs rows2 mapping_lines found_data).
Proof.
  revert mapping_lines found_data; induction rows1 as [|row rows1 IH];
    intros ml fd; simpl; [reflexivity|].
  destruct (export_cells row (enumerate (zip hs cs)) [] fd) as [[line fd']|e];
    [|reflexivity].
  simpl. apply IH.
Qed.

(** The rows exported so far: one line each after the lines already
    there, and the flag tells whether one of them was data. *)
Lemma export_rows_Return hs cs h c hcs rows mapping_lines found_data table
    found_data' :
  zip hs cs = (h, c) :: hcs ->
  export_rows hs cs rows mapping_lines found_data = Return (table, found_data') ->
  found_data' = found_data || negb (forallb (starts_comment c) rows)
  /\ exists lines,
       table = mapping_lines ++ lines /\ length lines = length rows.
Proof.
  intros Hzip. revert mapping_lines found_data;
    induction rows as [|row rows IH]; intros ml fd; simpl.
  - intros [= <- <-]. split; [rewrite orb_false_r; reflexivity|].
    exists []. rewrite app_nil_r. auto.
  - intros ([line fd1] & Hrow & Hrest)%bind_Return_inv.
    rewrite Hzip in Hrow. apply export_row_flag in Hrow as Hfd1.
    apply IH in Hrest as [-> (lines & -> & Hlen)]. split.
    + subst fd1. destruct fd, (starts_comment c row); reflexivity.
    + exists (line :: lines). rewrite <- app_assoc. simpl. auto.
Qed.

Lemma export_pages_Return hs cs rows_feed mapping_lines table :
  export_pages hs cs rows_feed mapping_lines = Return table ->
  exists found_data,
    export_rows hs cs (entry rows_feed) mapping_lines false
    = Return (table, found_data).
Proof.
  destruct rows_feed as [rows|rows next]; simpl.
  - intros ([ml fd] & Hrows & [= <-])%bind_Return_inv. eauto.
  - intros ([ml fd] & Hrows & Hnext)%bind_Return_inv. discriminate.
Qed.

(** A list feed with a next page never yields a table: once the rows of
    its first page are exported, naming the converter raises. *)
Lemma export_pages_linked hs cs rows next mapping_lines table :
  export_pages hs cs (LinkedPage rows next) mapping_lines <> Return table.
Proof.
  simpl. destruct (export_rows hs cs rows mapping_lines false) as [[ml fd]|e];
    discriminate.
Qed.

Lemma export_pages_Raise hs cs rows_feed mapping_lines e :
  export_rows hs cs (entry rows_feed) mapping_lines false = Raise e ->
  export_pages hs cs rows_feed mapping_lines = Raise e.
Proof.
  destruct rows_feed as [rows|rows next]; simpl; intros ->; reflexivity.
Qed.

End Exporter.

Lemma lookup_cells_unmapped row hcs1 h c hcs2 :
  Forall (fun hc => is_Some (row !! hc.2)) hcs1 ->
  row !! c = None ->
  lookup_cells row (hcs1 ++ (h, c) :: hcs2)
  = Raise (RemoteMappingFileError (unmapped_header_msg h)).
Proof.
  intros Hall Hnone. induction Hall as [|[h' c'] hcs1 [cell_data Hc] _ IH]; simpl.
  - rewrite Hnone. reflexivity.
  - simpl in Hc. rewrite Hc, IH. reflexivity.
Qed.

Lemma lookup_cells_Return row hcs line :
  lookup_cells row hcs = Return line ->
  Forall2 (fun hc cell_data => row !! hc.2 = Some cell_data) hcs line.
Proof.
  revert line; induction hcs as [|[h c] hcs IH]; intros line; simpl.
  - intros [= <-]. constructor.
  - destruct (row !! c) as [cell_data|] eqn:Hc; [|discriminate].
    intros (cells & Hcells & [= <-])%bind_Return_inv.
    constructor; [exact Hc|apply IH; exact Hcells].
Qed.

(** C2, as stated, fails: the second row's first cell is ["  #c"], yet
    its exported line keeps both cells, because the row before it was
    data. *)
Lemma hash_row_after_data_kept_whole :
  entry (GetListFeed data_then_hash_service "K" "od6") !! 1
  = Some {[ "a" := Some "  #c"; "b" := Some "z" ]}
  /\ startswith "#" (lstrip "  #c") = true
  /\ _export_mapping_file data_then_hash_service "K" "od6" ["a"; "b"]
     = Return [ [Some "a"; Some "b"]; [Some "x"; Some "y"];
                [Some "  #c"; Some "z"] ].
Proof. repeat split; vm_compute; reflexivity. Qed.

(** C2, amended: in an export that returns, a row whose first cell
    starts with [#] after leading whitespace is exported as that cell
    alone when every row before it was such a row; once a row before it
    was data, the row is exported with one cell per header.  The flag
    that decides is carried from row to row. *)
Theorem comment_rows_until_first_data (client : SpreadsheetsService)
    (spreadsheet_key worksheet_id : string) (headers : list string)
    (table : list (list cell)) (j : nat) (row : Row) (c text : string) :
  let rows := entry (GetListFeed client spreadsheet_key worksheet_id) in
  let cleaned_headers := _get_cleaned_headers headers in
  _export_mapping_file client spreadsheet_key worksheet_id headers = Return table ->
  head cleaned_headers = Some c ->
  rows !! j = Some row ->
  row !! c = Some (Some text) ->
  startswith "#" (lstrip text) = true ->
  (forallb (starts_comment c) (take j rows) = true ->
   table !! S j = Some [Some text])
  /\ (forallb (starts_comment c) (take j rows) = false ->
      exists line,
        table !! S j = Some line
        /\ Forall2 (fun cleaned_header cell_data => row !! cleaned_header = Some cell_data)
             cleaned_headers line).
Proof.
  intros rows cleaned Hexp Hhead Hj Hcell Hhash.
  unfold _export_mapping_file in Hexp. fold cleaned rows in Hexp.
  apply export_pages_Return in Hexp as [fd Hexp]. fold rows in Hexp.
  assert (Hlen : length cleaned = length headers)
    by apply cleaned_headers_length.
  destruct cleaned as [|c0 cs] eqn:Hcleaned; [discriminate|].
  injection Hhead as ->.
  destruct headers as [|h hs]; [discriminate|].
  assert (Hzip : zip (h :: hs) (c :: cs) = (h, c) :: zip hs cs) by reflexivity.
  rewrite <- (take_drop_middle rows j row Hj) in Hexp.
  rewrite export_rows_app in Hexp.
  apply bind_Return_inv in Hexp as ([t1 fd1] & Hpre & Hexp).
  destruct (export_rows_Return _ _ _ _ _ _ _ _ _ _ Hzip Hpre)
    as [Hfd1 (lines & -> & Hlines)].
  simpl in Hfd1. rewrite export_rows_cons in Hexp.
  apply bind_Return_inv in Hexp as ([line fd2] & Hrow & Hrest).
  destruct (export_rows_Return _ _ _ _ _ _ _ _ _ _ Hzip Hrest)
    as [_ (lines' & -> & _)].
  assert (Hat : forall l : list cell,
            line = l ->
            ((([map Some (h :: hs)] ++ lines) ++ [line]) ++ lines') !! S j = Some l).
  { intros l <-. rewrite <- !app_assoc. simpl.
    rewrite lookup_app_r by (rewrite Hlines, length_take; lia).
    rewrite Hlines, length_take.
    apply lookup_lt_Some in Hj.
    replace (j - j `min` length rows) with 0 by lia. reflexivity. }
  rewrite Hzip in Hrow. split; intros Hall; rewrite Hall in Hfd1; subst fd1.
  - rewrite (export_row_comment _ _ _ _ _ Hcell Hhash) in Hrow.
    injection Hrow as <- _. apply Hat. reflexivity.
  - rewrite export_row_found_data in Hrow.
    apply bind_Return_inv in Hrow as (cells & Hcells & [= <- _]).
    exists cells. split; [apply Hat; reflexivity|].
    apply lookup_cells_Return in Hcells.
    clear - Hcells Hlen. simpl in Hlen.
    assert (Hgen : forall (hs0 cs0 : list string) (line0 : list cell),
              length cs0 = length hs0 ->
              Forall2 (fun (hc : string * string) cell_data =>
                         row !! hc.2 = Some cell_data) (zip hs0 cs0) line0 ->
              Forall2 (fun cleaned_header cell_data =>
                         row !! cleaned_header = Some cell_data) cs0 line0).
    { clear. induction hs0 as [|h0 hs0 IH]; intros [|c0 cs0] line0 Hl H;
        simpl in *; try discriminate.
      - inversion H. constructor.
      - inversion H; subst. constructor; [assumption|].
        apply IH; [lia|assumption]. }
    apply (Hgen (h :: hs) (c :: cs)); [simpl; lia|exact Hcells].
Qed.

Lemma comment_rows_until_first_data_witness :
  [ [Some "a"; Some "b"]; [Some "  #a comment"]; [Some "x"; Some "y"] ] !! 1
  = Some [Some "  #a comment"]
  /\ exists line,
       [ [Some "a"; Some "b"]; [Some "x"; Some "y"]; [Some "  #c"; Some "z"] ] !! 2
       = Some line
       /\ Forall2 (fun cleaned_header cell_data =>
                     ({[ "a" := Some "  #c"; "b" := Some "z" ]} : Row) !! cleaned_header
                     = Some cell_data)
            (_get_cleaned_headers ["a"; "b"]) line.
Proof.
  split.
  - apply (proj1 (comment_rows_until_first_data comment_then_data_service
                    "K" "od6" ["a"; "b"] _ 0
                    {[ "a" := Some "  #a comment"; "b" := None ]} "a" "  #a comment"
                    eq_refl eq_refl eq_refl eq_refl eq_refl)).
    reflexivity.
  - apply (proj2 (comment_rows_until_first_data data_then_hash_service
                    "K" "od6" ["a"; "b"] _ 1
                    {[ "a" := Some "  #c"; "b" := Some "z" ]} "a" "  #c"
                    eq_refl eq_refl eq_refl eq_refl eq_refl)).
    reflexivity.
Defined.

(** C6, as stated, fails: the row has no cell under the second cleaned
    header, yet the export returns a table, because a comment row is
    left after its first cell. *)
Lemma comment_row_skips_missing_cell :
  entry (GetListFeed comment_only_service "K" "od6") = [ {[ "a" := Some "#note" ]} ]
  /\ _get_cleaned_headers ["a"; "b"] !! 1 = Some "b"
  /\ ({[ "a" := Some "#note" ]} : Row) !! "b" = None
  /\ _export_mapping_file comment_only_service "K" "od6" ["a"; "b"]
     = Return [ [Some "a"; Some "b"]; [Some "#note"] ].
Proof. repeat split; vm_compute; reflexivity. Qed.

(** C6, amended: rows are exported in order and the columns of a row
    from left to right.  When the rows before [row] were exported and,
    in [row], the columns before position [i] have a cell, the lookup at
    position [i] is made if [i] is 0, or data was found before, or the
    first cell of [row] is text that does not start with [#]; if [row]
    then has no cell under the cleaned header at [i], the export raises
    RemoteMappingFileError with a message that names the header at [i],
    and returns no table. *)
Theorem unmapped_header_raises (client : SpreadsheetsService)
    (spreadsheet_key worksheet_id : string) (headers : list string)
    (done rest : list Row) (row : Row) (lines : list (list cell))
    (found_data : bool) (hcs1 hcs2 : list (string * string)) (h c : string) :
  let cleaned_headers := _get_cleaned_headers headers in
  entry (GetListFeed client spreadsheet_key worksheet_id) = done ++ row :: rest ->
  export_rows headers cleaned_headers done [map Some headers] false
  = Return (lines, found_data) ->
  zip headers cleaned_headers = hcs1 ++ (h, c) :: hcs2 ->
  Forall (fun hc => is_Some (row !! hc.2)) hcs1 ->
  row !! c = None ->
  (hcs1 = [] \/ found_data = true
   \/ exists h0 c0 hcs1' text,
        hcs1 = (h0, c0) :: hcs1' /\ row !! c0 = Some (Some text)
        /\ startswith "#" (lstrip text) = false) ->
  _export_mapping_file client spreadsheet_key worksheet_id headers
  = Raise (RemoteMappingFileError (unmapped_header_msg h))
  /\ occurs h (unmapped_header_msg h).
Proof.
  intros cleaned Hrows Hdone Hzip Hbefore Hnone Hreach.
  split; [|apply occurs_middle].
  unfold _export_mapping_file. fold cleaned.
  apply export_pages_Raise. rewrite Hrows, export_rows_app, Hdone.
  rewrite bind_Return, export_rows_cons, Hzip.
  pose proof (lookup_cells_unmapped row hcs1 h c hcs2 Hbefore Hnone) as Hlook.
  assert (Hrow : export_cells row (enumerate (hcs1 ++ (h, c) :: hcs2)) [] found_data
                 = Raise (RemoteMappingFileError (unmapped_header_msg h))).
  { destruct found_data.
    - rewrite export_row_found_data, Hlook. reflexivity.
    - destruct Hreach as [->|[Hfd|(h0 & c0 & hcs1' & text & -> & Hcell & Hhash)]].
      + simpl. rewrite Hnone. reflexivity.
      + discriminate.
      + change (((h0, c0) :: hcs1') ++ (h, c) :: hcs2)
          with ((h0, c0) :: (hcs1' ++ (h, c) :: hcs2)) in *.
        rewrite (export_row_data _ _ _ _ _ Hcell Hhash), Hlook. reflexivity. }
  rewrite Hrow. reflexivity.
Qed.

Lemma unmapped_header_raises_witness :
  _export_mapping_file comment_then_gap_service "K" "od6" ["a"; "b"]
  = Raise (RemoteMappingFileError (unmapped_header_msg "b"))
  /\ occurs "b" (unmapped_header_msg "b").
Proof.
  apply (unmapped_header_raises comment_then_gap_service "K" "od6" ["a"; "b"]
           [ {[ "a" := Some "#note"; "b" := None ]} ] []
           {[ "a" := Some "x" ]}
           [ [Some "a"; Some "b"]; [Some "#note"] ] false
           [("a", "a")] [] "b" "b").
  - reflexivity.
  - vm_compute. reflexivity.
  - vm_compute. reflexivity.
  - repeat constructor. simpl. vm_compute. eauto.
  - reflexivity.
  - right. right. exists "a", "a", [], "x". repeat split; reflexivity.
Defined.

(** ** Serializer *)

Section Serializer.

Lemma c_str_no_NUL (s : string) : has_char NUL s = false -> c_str s = s.
Proof.
  induction s as [|c s IH]; simpl; [reflexivity|].
  destruct (decide (c = NUL)); [discriminate|]. intros H. rewrite IH; auto.
Qed.

Lemma has_special_plain (s : string) :
  has_char TAB s = false -> has_char DQUOTE s = false ->
  has_char LF s = false -> has_special s = false.
Proof.
  induction s as [|c s IH]; simpl; [reflexivity|].
  destruct (decide (c = TAB)); [discriminate|].
  destruct (decide (c = DQUOTE)); [discriminate|].
  destruct (decide (c = LF)); [discriminate|].
  intros Ht Hq Hl. rewrite IH by assumption.
  unfold special, delimiter, quotechar, lineterminator. simpl.
  rewrite !bool_decide_eq_false_2 by assumption.
  destruct (decide (LF = c)); [congruence|reflexivity].
Qed.

Lemma plain_text_spec (s : string) :
  plain_text s = true ->
  has_char TAB s = false /\ has_char DQUOTE s = false
  /\ has_char LF s = false /\ has_char NUL s = false.
Proof.
  unfold plain_text. rewrite !andb_true_iff, !negb_true_iff. tauto.
Qed.

Lemma write_field_plain (quote_empty : bool) (f : cell) :
  plain_text (field_text f) = true ->
  (quote_empty = true -> field_text f <> EmptyString) ->
  write_field quote_empty f = field_text f.
Proof.
  intros (Ht & Hq & Hl & Hn)%plain_text_spec Hne. unfold write_field.
  rewrite (c_str_no_NUL _ Hn), (has_special_plain _ Ht Hq Hl). simpl.
  destruct quote_empty; [|rewrite andb_false_r; reflexivity].
  rewrite bool_decide_eq_false_2 by auto. reflexivity.
Qed.

Lemma writerow_plain (row : list cell) :
  plain_row row = true ->
  writerow row = join (chr TAB) (map field_text row) +:+ chr LF.
Proof.
  unfold plain_row, writerow. intros [Hall Hshape]%andb_true_iff.
  f_equal. f_equal. apply map_ext_in. intros f Hin.
  rewrite forallb_forall in Hall. apply write_field_plain; [auto|].
  intros Hone. destruct row as [|f0 [|f1 row]]; try discriminate.
  destruct Hin as [<-|[]]. apply negb_true_iff, bool_decide_eq_false in Hshape.
  exact Hshape.
Qed.

Lemma writerows_plain (table : list (list cell)) :
  forallb plain_row table = true -> writerows table = plain_lines table.
Proof.
  induction table as [|row table IH]; simpl; [reflexivity|].
  intros [Hrow Htable]%andb_true_iff.
  rewrite (writerow_plain _ Hrow), IH by assumption.
  rewrite app_assoc_str. reflexivity.
Qed.

(** Splitting on a character. *)
Lemma partition_char_absent (c : ascii) (s : string) :
  has_char c s = false -> partition (chr c) s = None.
Proof.
  induction s as [|a s IH]; simpl; [reflexivity|].
  destruct (decide (a = c)) as [->|Hne]; [discriminate|].
  intros H. rewrite decide_False by congruence. rewrite IH by assumption.
  reflexivity.
Qed.

Lemma partition_char_first (c : ascii) (a b : string) :
  has_char c a = false ->
  partition (chr c) (a +:+ String c b) = Some (a, b).
Proof.
  induction a as [|x a IH]; rewrite ?app_empty_l, ?app_String_l; simpl.
  - intros _. rewrite decide_True by done. reflexivity.
  - destruct (decide (x = c)) as [->|Hne]; [discriminate|].
    intros H. rewrite decide_False by congruence. rewrite IH by assumption.
    reflexivity.
Qed.

Lemma split_char_absent (c : ascii) (s : string) :
  has_char c s = false -> split (chr c) s = [s].
Proof.
  intros H. rewrite split_unfold by discriminate.
  rewrite partition_char_absent by assumption. reflexivity.
Qed.

Lemma split_char_first (c : ascii) (a b : string) :
  has_char c a = false ->
  split (chr c) (a +:+ String c b) = a :: split (chr c) b.
Proof.
  intros H. rewrite split_unfold by discriminate.
  rewrite partition_char_first by assumption. reflexivity.
Qed.

Lemma split_join_char (c : ascii) (parts : list string) :
  parts <> [] -> Forall (fun p => has_char c p = false) parts ->
  split (chr c) (join (chr c) parts) = parts.
Proof.
  intros Hne Hall. induction Hall as [|p parts Hp Hall IH]; [contradiction|].
  destruct parts as [|q parts].
  - simpl. apply split_char_absent. exact Hp.
  - change (join (chr c) (p :: q :: parts))
      with (p +:+ chr c +:+ join (chr c) (q :: parts)).
    unfold chr at 2. rewrite app_String_l, app_empty_l.
    rewrite split_char_first by assumption. rewrite IH by discriminate.
    reflexivity.
Qed.

Lemma has_char_join (c d : ascii) (parts : list string) :
  c <> d -> Forall (fun p => has_char c p = false) parts ->
  has_char c (join (chr d) parts) = false.
Proof.
  intros Hcd Hall. induction Hall as [|p parts Hp Hall IH]; [reflexivity|].
  destruct parts as [|q parts]; [exact Hp|].
  change (join (chr d) (p :: q :: parts))
    with (p +:+ chr d +:+ join (chr d) (q :: parts)).
  rewrite !has_char_app, Hp, IH. simpl.
  rewrite decide_False by congruence. reflexivity.
Qed.

Lemma split_lines (lines : list string) :
  Forall (fun l => has_char LF l = false) lines ->
  split (chr LF)
    (foldr (fun l out => l +:+ chr LF +:+ out) EmptyString lines)
  = lines ++ [EmptyString].
Proof.
  intros Hall. induction Hall as [|l lines Hl Hall IH]; simpl.
  - apply split_char_absent. reflexivity.
  - unfold chr at 2. rewrite app_String_l, app_empty_l.
    rewrite split_char_first by assumption. rewrite IH. reflexivity.
Qed.

Lemma plain_lines_foldr (table : list (list cell)) :
  plain_lines table
  = foldr (fun l out => l +:+ chr LF +:+ out) EmptyString
      (map (fun row => join (chr TAB) (map field_text row)) table).
Proof.
  induction table as [|row table IH]; simpl; [reflexivity|].
  rewrite <- IH. reflexivity.
Qed.

Lemma plain_row_fields (row : list cell) :
  plain_row row = true ->
  row <> []
  /\ Forall (fun p => has_char TAB p = false) (map field_text row)
  /\ Forall (fun p => has_char LF p = false) (map field_text row).
Proof.
  unfold plain_row. intros [Hall Hshape]%andb_true_iff.
  rewrite forallb_forall in Hall. split; [destruct row; [discriminate|done]|].
  split; apply Forall_forall; intros p Hin%list_elem_of_In;
    apply in_map_iff in Hin as (f & <- & Hf);
    apply Hall, plain_text_spec in Hf; tauto.
Qed.

Lemma parse_plain_lines (table : list (list cell)) :
  forallb plain_row table = true ->
  parse_tsv (plain_lines table) = map (map field_text) table.
Proof.
  intros Hplain. unfold parse_tsv. rewrite plain_lines_foldr.
  rewrite forallb_forall in Hplain.
  rewrite split_lines.
  - rewrite removelast_last, map_map. apply map_ext_in.
    intros row Hin. destruct (plain_row_fields row (Hplain _ Hin)) as (Hne & Ht & _).
    apply split_join_char; [|exact Ht]. destruct row; [contradiction|discriminate].
  - apply Forall_forall. intros l Hin%list_elem_of_In.
    apply in_map_iff in Hin as (row & <- & Hrow).
    destruct (plain_row_fields row (Hplain _ Hrow)) as (_ & _ & Hl).
    apply has_char_join; [discriminate|exact Hl].
Qed.

End Serializer.

Lemma occurs_app_l (x a b : string) : occurs x a -> occurs x (a +:+ b).
Proof. apply occurs_prefix. Qed.

Lemma occurs_app_r (x a b : string) : occurs x b -> occurs x (a +:+ b).
Proof.
  intros (p & q & ->). exists (a +:+ p), q. rewrite app_assoc_str. reflexivity.
Qed.

Lemma occurs_refl (x : string) : occurs x x.
Proof. exists "", "". rewrite app_empty_l, app_empty_r. reflexivity. Qed.

Lemma occurs_join (sep p : string) (parts : list string) :
  In p parts -> occurs p (join sep parts).
Proof.
  induction parts as [|q parts IH]; [intros []|].
  intros Hin. destruct parts as [|q' parts].
  - destruct Hin as [<-|[]]. apply occurs_refl.
  - change (join sep (q :: q' :: parts))
      with (q +:+ sep +:+ join sep (q' :: parts)).
    destruct Hin as [<-|Hin].
    + apply occurs_app_l, occurs_refl.
    + do 2 apply occurs_app_r. apply IH. exact Hin.
Qed.

Lemma occurs_plain_lines (table : list (list cell)) (row : list cell) (f : cell) :
  In row table -> In f row -> occurs (field_text f) (plain_lines table).
Proof.
  intros Hrow Hf. induction table as [|r table IH]; [destruct Hrow|].
  simpl. destruct Hrow as [->|Hrow].
  - apply occurs_app_l, occurs_join, in_map. exact Hf.
  - do 2 apply occurs_app_r. apply IH. exact Hrow.
Qed.

Lemma has_special_tab (s : string) :
  has_char TAB s = true -> has_special s = true.
Proof.
  induction s as [|c s IH]; simpl; [discriminate|].
  destruct (decide (c = TAB)) as [->|Hne]; [reflexivity|].
  intros H. rewrite IH by assumption. apply orb_true_r.
Qed.

(** C3, as stated, fails: the cell with an embedded tab is written
    between double quotes and its double quote is doubled, so the cell
    does not appear verbatim in the output. *)
Lemma tab_cell_is_quoted :
  has_char TAB tab_quote_cell = true
  /\ writerows tab_quote_table
     = "note" +:+ chr LF +:+
       chr DQUOTE +:+ "x" +:+ chr TAB +:+ chr DQUOTE +:+ chr DQUOTE +:+ "y"
       +:+ chr DQUOTE +:+ chr LF
  /\ writerows tab_quote_table <> plain_lines tab_quote_table
  /\ ~ occurs tab_quote_cell (writerows tab_quote_table).
Proof.
  split; [reflexivity|]. split; [vm_compute; reflexivity|]. split.
  - intros H. vm_compute in H. discriminate H.
  - apply contains_false. vm_compute. reflexivity.
Qed.

Section Rendering.

Lemma c_str_truncate (s : string) : c_str s = truncate_at NUL s.
Proof.
  induction s as [|c s IH]; simpl; [reflexivity|].
  destruct (decide (c = NUL)); [reflexivity|]. rewrite IH. reflexivity.
Qed.

Lemma has_special_chars (s : string) :
  has_special s = has_char TAB s || has_char DQUOTE s || has_char LF s.
Proof.
  induction s as [|c s IH]; simpl; [reflexivity|]. rewrite IH.
  unfold special, delimiter, quotechar, lineterminator. simpl.
  destruct (decide (c = TAB)) as [->|Ht]; [reflexivity|].
  rewrite (bool_decide_eq_false_2 _ Ht).
  destruct (decide (c = DQUOTE)) as [->|Hq];
    [simpl; rewrite orb_true_r; reflexivity|].
  rewrite (bool_decide_eq_false_2 _ Hq).
  destruct (decide (c = LF)) as [->|Hl];
    [simpl; rewrite !orb_true_r; reflexivity|].
  rewrite decide_False by congruence. reflexivity.
Qed.

Lemma split_char_cons_eq (c : ascii) (s : string) :
  split (chr c) (String c s) = EmptyString :: split (chr c) s.
Proof. apply (split_char_first c "" s). reflexivity. Qed.

Lemma split_char_cons_ne (c a : ascii) (s : string) :
  a <> c ->
  split (chr c) (String a s)
  = match split (chr c) s with
    | p :: ps => String a p :: ps
    | [] => []
    end.
Proof.
  intros Hne.
  rewrite (split_unfold (chr c) (String a s)), (split_unfold (chr c) s)
    by discriminate.
  simpl. rewrite decide_False by congruence.
  destruct (partition (chr c) s) as [[b r]|]; reflexivity.
Qed.

Lemma join_String (sep : string) (a : ascii) (p : string) (ps : list string) :
  join sep (String a p :: ps) = String a (join sep (p :: ps)).
Proof. destruct ps; reflexivity. Qed.

Lemma doublequote_replace (s : string) :
  doublequote s = py_replace (chr DQUOTE) (chr DQUOTE +:+ chr DQUOTE) s.
Proof.
  unfold py_replace. induction s as [|a s IH]; simpl.
  - rewrite split_char_absent by reflexivity. reflexivity.
  - destruct (decide (a = quotechar)) as [->|Hne].
    + unfold quotechar. rewrite split_char_cons_eq, IH.
      destruct (split (chr DQUOTE) s) as [|p ps] eqn:E;
        [exfalso; exact (split_not_nil _ _ E)|].
      reflexivity.
    + unfold quotechar in Hne. rewrite (split_char_cons_ne _ _ _ Hne), IH.
      destruct (split (chr DQUOTE) s) as [|p ps] eqn:E;
        [exfalso; exact (split_not_nil _ _ E)|].
      rewrite join_String. reflexivity.
Qed.

Lemma write_field_rendered (row : list cell) (f : cell) :
  write_field (length row =? 1)%nat f
  = rendered_field (bool_decide (length row = 1)) f.
Proof.
  unfold write_field, rendered_field, must_quote.
  rewrite c_str_truncate, has_special_chars, doublequote_replace.
  replace (length row =? 1)%nat with (bool_decide (length row = 1))
    by (destruct (Nat.eqb_spec (length row) 1);
        [rewrite bool_decide_eq_true_2|rewrite bool_decide_eq_false_2]; auto).
  rewrite (andb_comm (bool_decide (truncate_at NUL (field_text f) = ""))).
  reflexivity.
Qed.

Lemma writerows_rendered (table : list (list cell)) :
  writerows table = rendered_lines table.
Proof.
  induction table as [|row table IH]; simpl; [reflexivity|].
  rewrite IH. unfold writerow, delimiter, lineterminator.
  rewrite app_assoc_str. do 2 f_equal. apply map_ext.
  intros f. apply write_field_rendered.
Qed.

Lemma occurs_rendered (table : list (list cell)) (row : list cell) (f : cell) :
  In row table -> In f row ->
  occurs (rendered_field (bool_decide (length row = 1)) f) (rendered_lines table).
Proof.
  intros Hrow Hf. induction table as [|r table IH]; [destruct Hrow|].
  simpl. destruct Hrow as [->|Hrow].
  - apply occurs_app_l, occurs_join.
    apply (in_map (rendered_field (bool_decide (length row = 1)))). exact Hf.
  - do 2 apply occurs_app_r. apply IH. exact Hrow.
Qed.

Lemma truncate_at_absent (c : ascii) (s : string) :
  has_char c s = false -> truncate_at c s = s.
Proof.
  induction s as [|a s IH]; simpl; [reflexivity|].
  destruct (decide (a = c)); [discriminate|]. intros H. rewrite IH; auto.
Qed.

Lemma py_replace_absent (c : ascii) (new s : string) :
  has_char c s = false -> py_replace (chr c) new s = s.
Proof.
  intros H. unfold py_replace. rewrite split_char_absent by assumption.
  reflexivity.
Qed.

Lemma has_char_doublequote (c : ascii) (s : string) :
  c <> DQUOTE -> has_char c (doublequote s) = has_char c s.
Proof.
  intros Hc. induction s as [|a s IH]; simpl; [reflexivity|].
  destruct (decide (a = quotechar)) as [->|Hne]; simpl.
  - unfold quotechar. rewrite !decide_False by congruence. exact IH.
  - rewrite IH. reflexivity.
Qed.

Lemma has_char_write_field_LF (quote_empty : bool) (f : cell) :
  has_char LF (truncate_at NUL (field_text f)) = false ->
  has_char LF (write_field quote_empty f) = false.
Proof.
  intros H. unfold write_field. rewrite c_str_truncate.
  destruct (_ || _); [|exact H].
  rewrite !has_char_app, has_char_doublequote, H by discriminate.
  reflexivity.
Qed.

Lemma writerows_foldr (table : list (list cell)) :
  writerows table
  = foldr (fun l out => l +:+ chr LF +:+ out) EmptyString
      (map (fun row =>
              join (chr TAB) (map (write_field (length row =? 1)%nat) row))
           table).
Proof.
  induction table as [|row table IH]; simpl; [reflexivity|].
  rewrite <- IH. unfold writerow, delimiter, lineterminator.
  rewrite app_assoc_str. reflexivity.
Qed.

Lemma writerows_records (table : list (list cell)) :
  Forall (Forall (fun f =>
                    has_char LF (truncate_at NUL (field_text f)) = false)) table ->
  exists lines,
    split (chr LF) (writerows table) = lines ++ [EmptyString]
    /\ length lines = length table.
Proof.
  intros Hall. rewrite writerows_foldr.
  eexists. split; [apply split_lines|apply length_map].
  apply Forall_forall. intros l Hin%list_elem_of_In.
  apply in_map_iff in Hin as (row & <- & Hrow).
  apply has_char_join; [discriminate|].
  rewrite Forall_forall in Hall. specialize (Hall row).
  rewrite <- list_elem_of_In in Hrow. specialize (Hall Hrow).
  apply Forall_forall. intros p Hp%list_elem_of_In.
  apply in_map_iff in Hp as (f & <- & Hf).
  apply has_char_write_field_LF.
  rewrite Forall_forall in Hall. apply Hall. apply list_elem_of_In. exact Hf.
Qed.

End Rendering.

(** C3, amended: the serializer renders each row of the table as one
    record, its fields joined by tabs and ended by a line feed, one
    record per row including the header row and nothing after the last
    line feed; when no cell holds a line feed these records are the
    lines of the output.  A cell is written as its text up to the first
    NUL (a blank cell as the empty text): as it is when that text holds
    no tab, double quote or line feed and is not the empty only cell of
    its row, and otherwise between double quotes with each of its double
    quotes doubled.  So a cell without NUL that holds a tab is written
    quoted, and appears as it is, between the added double quotes, when
    it holds no double quote. *)
Theorem serializer_plain_or_quoted (table : list (list cell)) :
  writerows table = rendered_lines table
  /\ (Forall (Forall (fun f =>
                has_char LF (truncate_at NUL (field_text f)) = false)) table ->
      exists lines,
        split (chr LF) (writerows table) = lines ++ [EmptyString]
        /\ length lines = length table)
  /\ (forallb plain_row table = true ->
      writerows table = plain_lines table
      /\ forall row f, In row table -> In f row ->
           occurs (field_text f) (writerows table))
  /\ (forall row text,
        In row table -> In (Some text) row ->
        has_char NUL text = false -> has_char TAB text = true ->
        occurs (chr DQUOTE
                +:+ py_replace (chr DQUOTE) (chr DQUOTE +:+ chr DQUOTE) text
                +:+ chr DQUOTE)
               (writerows table)
        /\ (has_char DQUOTE text = false ->
            occurs (chr DQUOTE +:+ text +:+ chr DQUOTE) (writerows table))).
Proof.
  split; [apply writerows_rendered|]. split; [apply writerows_records|]. split.
  - intros Hplain. rewrite (writerows_plain _ Hplain).
    split; [reflexivity|]. intros row f. apply occurs_plain_lines.
  - intros row text Hrow Hf Hnul Htab.
    pose proof (occurs_rendered table row (Some text) Hrow Hf) as Hocc.
    rewrite <- writerows_rendered in Hocc.
    unfold rendered_field, must_quote in Hocc. simpl field_text in Hocc.
    rewrite (truncate_at_absent _ _ Hnul), Htab in Hocc. simpl in Hocc.
    split; [exact Hocc|].
    intros Hq. rewrite (py_replace_absent _ _ _ Hq) in Hocc. exact Hocc.
Qed.

Lemma serializer_plain_or_quoted_witness :
  (writerows fasting_table = plain_lines fasting_table
   /\ forall row f, In row fasting_table -> In f row ->
        occurs (field_text f) (writerows fasting_table))
  /\ occurs (chr DQUOTE +:+ tab_cell +:+ chr DQUOTE) (writerows tab_table)
  /\ exists lines,
       split (chr LF) (writerows tab_quote_table) = lines ++ [EmptyString]
       /\ length lines = length tab_quote_table.
Proof.
  split; [|split].
  - apply (proj1 (proj2 (proj2 (serializer_plain_or_quoted fasting_table)))).
    reflexivity.
  - apply (proj2 (proj2 (proj2 (serializer_plain_or_quoted tab_table)))
             [Some "s1"; Some tab_cell] tab_cell);
      [right; left; reflexivity|right; left; reflexivity|reflexivity..].
  - apply (proj1 (proj2 (serializer_plain_or_quoted tab_quote_table))).
    repeat constructor.
Defined.

(** C8, as stated, fails: a cell with double quotes is written quoted
    and doubled, so the output is not the tab-joined lines of the table
    and splitting it does not give the cell back. *)
Lemma quoted_cell_breaks_round_trip :
  writerows quoted_note_table
  = "id" +:+ chr TAB +:+ "note" +:+ chr LF +:+
    "s1" +:+ chr TAB +:+
    chr DQUOTE +:+ "say " +:+ chr DQUOTE +:+ chr DQUOTE +:+ "hi"
    +:+ chr DQUOTE +:+ chr DQUOTE +:+ chr DQUOTE +:+ chr LF
  /\ writerows quoted_note_table <> plain_lines quoted_note_table
  /\ parse_tsv (writerows quoted_note_table)
     <> map (map field_text) quoted_note_table.
Proof.
  split; [vm_compute; reflexivity|]. split.
  - intros H. vm_compute in H. discriminate H.
  - intros H. vm_compute in H. discriminate H.
Qed.

(** C8, amended: for every table whose rows are not empty, whose cells
    hold no tab, double quote, line feed or NUL, and in which no row is a
    single empty cell, serializing gives exactly the tab-joined,
    line-feed-terminated lines of the table, and splitting the output on
    line feeds and tabs gives back the header and the rows (a blank cell
    as the empty text). *)
Theorem serialize_round_trip (table : list (list cell)) :
  forallb plain_row table = true ->
  writerows table = plain_lines table
  /\ parse_tsv (writerows table) = map (map field_text) table.
Proof.
  intros Hplain. rewrite (writerows_plain _ Hplain).
  split; [reflexivity|]. apply parse_plain_lines. exact Hplain.
Qed.

Lemma serialize_round_trip_witness :
  writerows fasting_table = plain_lines fasting_table
  /\ parse_tsv (writerows fasting_table) = map (map field_text) fasting_table.
Proof. apply (serialize_round_trip fasting_table). reflexivity. Defined.

(** * Further properties of the module *)

(** ** Header fetch *)



(** X1: [_get_spreadsheet_headers] returns the cell texts of all the
    pages of the cells feed, page after page and in page order. *)
Theorem headers_of_all_pages (client : SpreadsheetsService)
    (spreadsheet_key worksheet_id : string) :
  _get_spreadsheet_headers client spreadsheet_key worksheet_id
  = concat (feed_pages (GetCellsFeed client spreadsheet_key worksheet_id)).
Proof.
  unfold _get_spreadsheet_headers. rewrite collect_header_pages_concat.
  reflexivity.
Qed.

(** ** Header Cleaner, position by position *)

Section Numbering.

Lemma occurrences_app (c : string) (l1 l2 : list string) :
  occurrences c (l1 ++ l2) = occurrences c l1 + occurrences c l2.
Proof. unfold occurrences. rewrite filter_app, length_app. reflexivity. Qed.

Lemma occurrences_singleton (c x : string) :
  occurrences c [x] = if decide (x = c) then 1 else 0.
Proof.
  unfold occurrences. rewrite filter_cons, filter_nil.
  destruct (decide (x = c)); reflexivity.
Qed.

Lemma occurrences_absent (c : string) (l : list string) :
  c ∉ l -> occurrences c l = 0.
Proof.
  unfold occurrences. induction l as [|x l IH]; [reflexivity|].
  intros Hnot. apply not_elem_of_cons in Hnot as [Hne Hnot].
  rewrite filter_cons, decide_False by congruence. apply IH. exact Hnot.
Qed.

(** The counts of the dictionary are those of the sanitized headers
    already met. *)
Lemma number_header_foldl (hcs : list (string * string))
    (m : gmap string nat) (rs seen : list string) :
  (forall c, count_of m c = occurrences c seen) ->
  (foldl number_header (m, rs) hcs).2 = rs ++ number_after seen (hcs.*2).
Proof.
  revert m rs seen; induction hcs as [|[h c] hcs IH]; intros m rs seen Hm; simpl.
  - rewrite app_nil_r. reflexivity.
  - rewrite (IH _ _ (seen ++ [c])).
    + rewrite <- app_assoc. simpl. unfold numbered_name. rewrite Hm. reflexivity.
    + intros c'. rewrite count_of_insert, occurrences_app, occurrences_singleton.
      destruct (decide (c = c')) as [->|Hne]; rewrite Hm; lia.
Qed.

Lemma cleaned_headers_number_after (headers : list string) :
  _get_cleaned_headers headers = number_after [] (map sanitize headers).
Proof.
  unfold _get_cleaned_headers.
  rewrite (number_header_foldl _ ∅ [] []) by (intros c; reflexivity).
  simpl. rewrite snd_zip by (rewrite length_map; lia). reflexivity.
Qed.

Lemma number_after_lookup (seen cs : list string) (i : nat) (c : string) :
  cs !! i = Some c ->
  number_after seen cs !! i
  = Some (numbered_name c (occurrences c (seen ++ take i cs))).
Proof.
  revert seen i; induction cs as [|x cs IH]; intros seen [|i]; simpl;
    try discriminate.
  - intros [= ->]. rewrite app_nil_r. reflexivity.
  - intros Hi. rewrite (IH _ _ Hi), <- app_assoc. reflexivity.
Qed.

Lemma number_after_distinct (seen cs : list string) :
  NoDup (seen ++ cs) -> number_after seen cs = cs.
Proof.
  revert seen; induction cs as [|c cs IH]; intros seen Hnd; simpl.
  - reflexivity.
  - rewrite IH by (rewrite <- app_assoc; exact Hnd).
    apply NoDup_app in Hnd as (_ & Hdisj & _).
    rewrite occurrences_absent; [reflexivity|].
    intros Hin. apply (Hdisj c Hin). left.
Qed.

End Numbering.

(** X2: the cleaned header at position [i] is the sanitized form of the
    header at [i], alone when no header to its left has the same
    sanitized form, and followed by [_k] when [k] headers to its left
    have it. *)
Theorem cleaned_header_at (headers : list string) (i : nat) (header : string) :
  headers !! i = Some header ->
  _get_cleaned_headers headers !! i
  = Some (numbered_name (sanitize header)
            (occurrences (sanitize header) (map sanitize (take i headers)))).
Proof.
  intros Hi. rewrite cleaned_headers_number_after.
  rewrite (number_after_lookup _ _ _ (sanitize header))
    by (rewrite list_lookup_fmap, Hi; reflexivity).
  simpl. rewrite <- fmap_take. reflexivity.
Qed.

Lemma cleaned_header_at_witness :
  _get_cleaned_headers ["foo"; "bar"; "F_oO"; "#Foo"] !! 3
  = Some (numbered_name (sanitize "#Foo")
            (occurrences (sanitize "#Foo")
               (map sanitize (take 3 ["foo"; "bar"; "F_oO"; "#Foo"])))).
Proof.
  apply (cleaned_header_at ["foo"; "bar"; "F_oO"; "#Foo"] 3 "#Foo"). reflexivity.
Defined.

(** X3: when the sanitized forms of the headers are pairwise distinct,
    the cleaned headers are these sanitized forms, without suffix. *)
Theorem cleaned_headers_without_collision (headers : list string) :
  NoDup (map sanitize headers) ->
  _get_cleaned_headers headers = map sanitize headers.
Proof.
  intros Hnd. rewrite cleaned_headers_number_after.
  apply number_after_distinct. exact Hnd.
Qed.

Lemma cleaned_headers_without_collision_witness :
  _get_cleaned_headers ["#SampleID"; "Barcode Sequence"; "DOB"]
  = map sanitize ["#SampleID"; "Barcode Sequence"; "DOB"].
Proof.
  apply cleaned_headers_without_collision.
  apply (bool_decide_unpack _). vm_compute. exact I.
Defined.

(** ** Sanitized headers *)

Section Sanitize.

Lemma all_chars_and (P Q : ascii -> bool) (s : string) :
  all_chars (fun c => P c && Q c) s = all_chars P s && all_chars Q s.
Proof.
  induction s as [|c s IH]; simpl; [reflexivity|].
  rewrite IH. destruct (P c), (Q c), (all_chars P s); reflexivity.
Qed.

Lemma all_chars_replace_with_empty (P : ascii -> bool) (old : ascii) (s : string) :
  all_chars P s = true -> all_chars P (replace_with_empty old s) = true.
Proof.
  induction s as [|c s IH]; simpl; [reflexivity|].
  intros [Hc Hs]%andb_true_iff. destruct (decide (c = old)); [auto|].
  simpl. rewrite Hc. auto.
Qed.

Lemma all_chars_removed (old : ascii) (s : string) :
  all_chars (fun c => negb (bool_decide (c = old))) (replace_with_empty old s)
  = true.
Proof.
  induction s as [|c s IH]; simpl; [reflexivity|].
  destruct (decide (c = old)); [exact IH|].
  simpl. rewrite bool_decide_eq_false_2 by assumption. exact IH.
Qed.

Lemma lower_char_not_upper (c : ascii) : is_upper (lower_char c) = false.
Proof. destruct c as [[] [] [] [] [] [] [] []]; reflexivity. Qed.

Lemma all_chars_lower (s : string) :
  all_chars (fun c => negb (is_upper c)) (lower s) = true.
Proof.
  induction s as [|c s IH]; simpl; [reflexivity|].
  rewrite lower_char_not_upper. exact IH.
Qed.

Lemma lower_without_upper (s : string) :
  all_chars (fun c => negb (is_upper c)) s = true -> lower s = s.
Proof.
  induction s as [|c s IH]; simpl; [reflexivity|].
  intros [Hc Hs]%andb_true_iff. rewrite IH by assumption.
  unfold lower_char. apply negb_true_iff in Hc. rewrite Hc. reflexivity.
Qed.

Lemma replace_with_empty_absent (old : ascii) (s : string) :
  all_chars (fun c => negb (bool_decide (c = old))) s = true ->
  replace_with_empty old s = s.
Proof.
  induction s as [|c s IH]; simpl; [reflexivity|].
  intros [Hc Hs]%andb_true_iff. apply negb_true_iff, bool_decide_eq_false in Hc.
  rewrite decide_False by assumption. rewrite IH by assumption. reflexivity.
Qed.

Lemma sanitized_char_split (s : string) :
  all_chars sanitized_char s
  = all_chars (fun c => negb (is_upper c)) s
    && all_chars (fun c => negb (bool_decide (c = "_"%char))) s
    && all_chars (fun c => negb (bool_decide (c = ":"%char))) s
    && all_chars (fun c => negb (bool_decide (c = " "%char))) s
    && all_chars (fun c => negb (bool_decide (c = "#"%char))) s.
Proof. unfold sanitized_char. rewrite !all_chars_and. reflexivity. Qed.

End Sanitize.

Lemma sanitize_all_chars (header : string) :
  all_chars sanitized_char (sanitize header) = true.
Proof.
  rewrite sanitized_char_split. unfold sanitize.
  repeat (apply andb_true_intro; split).
  - do 4 apply all_chars_replace_with_empty. apply all_chars_lower.
  - do 3 apply all_chars_replace_with_empty. apply all_chars_removed.
  - do 2 apply all_chars_replace_with_empty. apply all_chars_removed.
  - apply all_chars_replace_with_empty. apply all_chars_removed.
  - apply all_chars_removed.
Qed.

(** X4: the sanitized form of a header holds no upper-case letter and
    none of the characters [_], [:], space and [#]. *)
Theorem sanitize_chars (header : string) :
  all_chars sanitized_char (sanitize header) = true.
Proof. apply sanitize_all_chars. Qed.

(** X5: sanitizing is idempotent: a sanitized header is its own
    sanitized form. *)
Theorem sanitize_idempotent (header : string) :
  sanitize (sanitize header) = sanitize header.
Proof.
  pose proof (sanitize_all_chars header) as H.
  rewrite sanitized_char_split in H.
  apply andb_true_iff in H as [H Hhash]. apply andb_true_iff in H as [H Hsp].
  apply andb_true_iff in H as [H Hcol]. apply andb_true_iff in H as [Hup Hund].
  generalize dependent (sanitize header). intros s Hup Hund Hcol Hsp Hhash.
  unfold sanitize. rewrite (lower_without_upper _ Hup).
  rewrite (replace_with_empty_absent _ _ Hund).
  rewrite (replace_with_empty_absent _ _ Hcol).
  rewrite (replace_with_empty_absent _ _ Hsp).
  apply replace_with_empty_absent. exact Hhash.
Qed.

(** ** Key Extractor, what the key holds *)

Section KeyShape.

Lemma has_char_truncate_at (c : ascii) (s : string) :
  has_char c (truncate_at c s) = false.
Proof.
  induction s as [|a s IH]; simpl; [reflexivity|].
  destruct (decide (a = c)) as [->|Hne]; [reflexivity|].
  simpl. rewrite decide_False by assumption. exact IH.
Qed.

Lemma has_char_truncate_other (c d : ascii) (s : string) :
  has_char d s = false -> has_char d (truncate_at c s) = false.
Proof.
  induction s as [|a s IH]; simpl; [reflexivity|].
  destruct (decide (a = d)) as [->|Hne]; [discriminate|].
  intros H. destruct (decide (a = c)); [reflexivity|].
  simpl. rewrite decide_False by assumption. auto.
Qed.

Lemma occurs_truncate_at (c : ascii) (s : string) : occurs (truncate_at c s) s.
Proof.
  destruct (truncate_at_prefix c s) as [rest Hs]. exists "", rest.
  rewrite app_empty_l. exact Hs.
Qed.

Lemma occurs_trans (a b c : string) : occurs a b -> occurs b c -> occurs a c.
Proof.
  intros (p & q & ->) (p' & q' & ->). exists (p' +:+ p), (q +:+ q').
  rewrite !app_assoc_str. reflexivity.
Qed.

End KeyShape.

(** X6: the key returned by the key extractor is a piece of its input;
    when the input holds ["key="], the key holds neither [#] nor [&]. *)
Theorem extract_key_shape (url : string) :
  occurs (_extract_spreadsheet_key_from_url url) url
  /\ (occurs "key=" url ->
      has_char "#" (_extract_spreadsheet_key_from_url url) = false
      /\ has_char "&" (_extract_spreadsheet_key_from_url url) = false).
Proof.
  destruct (contains "key=" url) eqn:E.
  - apply contains_occurs in E. rewrite (extract_key_with_key _ E). split.
    + eapply occurs_trans; [apply occurs_truncate_at|].
      eapply occurs_trans; [apply occurs_truncate_at|].
      destruct (last_split "key=" (String.length url) url) as [_ [[_ ->]|[p Hp]]];
        [discriminate|lia|apply occurs_refl|].
      exists (p +:+ "key="), "". rewrite app_empty_r, app_assoc_str. exact Hp.
    + intros _. split.
      * apply has_char_truncate_other, has_char_truncate_at.
      * apply has_char_truncate_at.
  - apply contains_false in E. rewrite (extract_key_without_key _ E).
    split; [apply occurs_refl|]. intros H. contradiction.
Qed.

Lemma extract_key_shape_witness :
  has_char "#" (_extract_spreadsheet_key_from_url "pub?key=0AnzKEY&output=html#gid=1")
  = false
  /\ has_char "&" (_extract_spreadsheet_key_from_url "pub?key=0AnzKEY&output=html#gid=1")
     = false.
Proof.
  apply (proj2 (extract_key_shape "pub?key=0AnzKEY&output=html#gid=1")).
  exists "pub?", "0AnzKEY&output=html#gid=1". reflexivity.
Defined.

(** ** Top-level loader, further cases *)

(** X7: the loader gives the same result for a URL and for the key it
    extracts from that URL. *)
Theorem load_url_or_key (gd_client : SpreadsheetsService)
    (spreadsheet_key : string) (worksheet_name : option string) :
  load_google_spreadsheet_mapping_file gd_client
    (_extract_spreadsheet_key_from_url spreadsheet_key) worksheet_name
  = load_google_spreadsheet_mapping_file gd_client spreadsheet_key worksheet_name.
Proof.
  unfold load_google_spreadsheet_mapping_file.
  rewrite (extract_key_without_key _ (extract_key_has_no_key spreadsheet_key)).
  reflexivity.
Qed.

Section Worksheets.

Lemma find_worksheet_snoc (name : string) (entries : list WorksheetEntry)
    (sheet : WorksheetEntry) :
  find_worksheet name (entries ++ [sheet])
  = keep_match name (find_worksheet name entries) sheet.
Proof. unfold find_worksheet. rewrite foldl_app. reflexivity. Qed.



End Worksheets.

(** X8: the search for a named worksheet returns an entry of the feed
    with the requested title, and returns nothing only when no entry of
    the feed has that title. *)
Theorem find_worksheet_spec (name : string) (entries : list WorksheetEntry) :
  match find_worksheet name entries with
  | Some w => title_text w = name /\ w ∈ entries
  | None => Forall (fun sheet => title_text sheet <> name) entries
  end.
Proof.
  induction entries as [|sheet entries IH] using rev_ind.
  - constructor.
  - rewrite find_worksheet_snoc. unfold keep_match.
    destruct (decide (title_text sheet = name)) as [Heq|Hne].
    + split; [exact Heq|]. apply elem_of_app. right. left.
    + destruct (find_worksheet name entries) as [w|].
      * destruct IH as [Hw Hin]. split; [exact Hw|].
        apply elem_of_app. left. exact Hin.
      * apply Forall_app. split; [exact IH|]. constructor; [exact Hne|constructor].
Qed.

(** X9: the worksheet ID taken from an entry holds no [/], and the
    entry's id text is that ID, or ends with [/] followed by that ID. *)
Theorem worksheet_id_is_last_segment (worksheet : WorksheetEntry) :
  has_char "/" (worksheet_id_of worksheet) = false
  /\ (id_text worksheet = worksheet_id_of worksheet
      \/ exists p, id_text worksheet = p +:+ "/" +:+ worksheet_id_of worksheet).
Proof.
  unfold worksheet_id_of.
  destruct (last_split "/" (String.length (id_text worksheet)) (id_text worksheet))
    as [Hno Hshape]; [discriminate|lia|]. split.
  - destruct (has_char "/" (last_item (split "/" (id_text worksheet)))) eqn:E;
      [|reflexivity].
    apply has_char_occurs in E. contradiction.
  - destruct Hshape as [[_ Heq]|[p Hp]]; [left; congruence|right; eauto].
Qed.

(** X10: the loader passes on, unchanged, an exception of the first
    request other than [gaierror], and an exception raised while the
    rows are exported. *)
Theorem load_propagates (gd_client : SpreadsheetsService)
    (spreadsheet_key : string) (worksheet_name : option string) :
  let key := _extract_spreadsheet_key_from_url spreadsheet_key in
  let loaded :=
    load_google_spreadsheet_mapping_file gd_client spreadsheet_key worksheet_name in
  (forall e, GetWorksheetsFeed gd_client key = Raise e -> e <> gaierror ->
             loaded = Raise e)
  /\ (forall entries worksheet e,
        GetWorksheetsFeed gd_client key = Return entries ->
        selected_worksheet worksheet_name entries = Some worksheet ->
        _get_spreadsheet_headers gd_client key (worksheet_id_of worksheet) <> [] ->
        _export_mapping_file gd_client key (worksheet_id_of worksheet)
          (_get_spreadsheet_headers gd_client key (worksheet_id_of worksheet))
        = Raise e ->
        loaded = Raise e).
Proof.
  intros key loaded. subst loaded. split.
  - intros e Hfeed Hne. unfold load_google_spreadsheet_mapping_file. fold key.
    rewrite Hfeed. destruct e; try reflexivity. contradiction.
  - intros entries w e Hfeed Hsel Hheaders Hexp.
    rewrite (load_with_entries _ _ _ _ _ Hfeed Hsel). fold key.
    unfold read_worksheet. rewrite Hexp.
    destruct (_get_spreadsheet_headers gd_client key (worksheet_id_of w));
      [contradiction|reflexivity].
Qed.

Lemma load_propagates_witness :
  load_google_spreadsheet_mapping_file broken_service "K" None
  = Raise (AttributeError "no attribute 'entry'")
  /\ load_google_spreadsheet_mapping_file comment_then_gap_service "K" None
     = Raise (RemoteMappingFileError (unmapped_header_msg "b")).
Proof.
  split.
  - apply (proj1 (load_propagates broken_service "K" None)); [reflexivity|discriminate].
  - apply (proj2 (load_propagates comment_then_gap_service "K" None)
             [sheet_od6] sheet_od6); [reflexivity|reflexivity|discriminate|].
    vm_compute. reflexivity.
Defined.

(** ** Mapping Exporter, further cases *)

Section ExporterCases.

Lemma zip_cleaned_head (headers : list string) (c : string) :
  head (_get_cleaned_headers headers) = Some c ->
  exists h hcs, zip headers (_get_cleaned_headers headers) = (h, c) :: hcs.
Proof.
  intros Hhead. pose proof (cleaned_headers_length headers) as Hlen.
  destruct (_get_cleaned_headers headers) as [|c0 cs]; [discriminate|].
  injection Hhead as ->. destruct headers as [|h hs]; [discriminate|].
  exists h, (zip hs cs). reflexivity.
Qed.

(** Comment rows, before any data: one cell each, and the flag stays
    unset. *)
Lemma export_comment_rows hs cs h c hcs rows mapping_lines :
  zip hs cs = (h, c) :: hcs ->
  Forall (fun row => starts_comment c row = true) rows ->
  export_rows hs cs rows mapping_lines false
  = Return (mapping_lines ++ map (comment_line c) rows, false).
Proof.
  intros Hzip Hall. revert mapping_lines.
  induction Hall as [|row rows Hrow Hall IH]; intros ml.
  - simpl. rewrite app_nil_r. reflexivity.
  - rewrite export_rows_cons, Hzip. unfold starts_comment in Hrow.
    destruct (row !! c) as [[text|]|] eqn:Hcell; try discriminate.
    rewrite (export_row_comment _ _ _ _ _ Hcell Hrow), bind_Return, IH.
    rewrite <- app_assoc. simpl. unfold comment_line at 2. rewrite Hcell.
    reflexivity.
Qed.

Lemma export_row_line row hcs found_data line found_data' :
  export_cells row (enumerate hcs) [] found_data = Return (line, found_data') ->
  exported_line hcs row line.
Proof.
  destruct hcs as [|[h c] hcs].
  - intros [= <- _]. left. constructor.
  - destruct found_data.
    + rewrite export_row_found_data.
      intros (cells & Hcells & [= <- _])%bind_Return_inv.
      left. apply lookup_cells_Return. exact Hcells.
    + destruct (row !! c) as [[text|]|] eqn:Hcell.
      * destruct (startswith "#" (lstrip text)) eqn:Hhash.
        -- rewrite (export_row_comment _ _ _ _ _ Hcell Hhash).
           intros [= <- _]. right. exists h, c, hcs, text. auto.
        -- rewrite (export_row_data _ _ _ _ _ Hcell Hhash).
           intros (cells & Hcells & [= <- _])%bind_Return_inv.
           left. apply lookup_cells_Return. exact Hcells.
      * rewrite enumerate_cons. simpl. rewrite Hcell. discriminate.
      * rewrite enumerate_cons. simpl. rewrite Hcell. discriminate.
Qed.

Lemma export_rows_lines hs cs rows mapping_lines found_data table found_data' :
  export_rows hs cs rows mapping_lines found_data = Return (table, found_data') ->
  exists lines,
    table = mapping_lines ++ lines
    /\ Forall2 (exported_line (zip hs cs)) rows lines.
Proof.
  revert mapping_lines found_data; induction rows as [|row rows IH];
    intros ml fd.
  - simpl. intros [= <- _]. exists []. rewrite app_nil_r. split; constructor.
  - rewrite export_rows_cons.
    intros ([line fd1] & Hrow & Hrest)%bind_Return_inv.
    apply export_row_line in Hrow.
    apply IH in Hrest as (lines & -> & Hlines).
    exists (line :: lines). rewrite <- app_assoc. split; [reflexivity|].
    constructor; assumption.
Qed.

Lemma export_rows_no_headers rows mapping_lines found_data :
  export_rows [] [] rows mapping_lines found_data
  = Return (mapping_lines ++ map (fun _ => []) rows, found_data).
Proof.
  revert mapping_lines; induction rows as [|row rows IH]; intros ml; simpl.
  - rewrite app_nil_r. reflexivity.
  - rewrite IH, <- app_assoc. reflexivity.
Qed.

End ExporterCases.

(** X11: a list feed that has a next page never gives a table: an
    exception raised while the rows of its first page are exported is
    raised by the export, and when these rows are exported the NameError
    of the missing converter is raised. *)
Theorem export_linked_feed_raises (client : SpreadsheetsService)
    (spreadsheet_key worksheet_id : string) (headers : list string)
    (rows : list Row) (next : Feed Row) :
  GetListFeed client spreadsheet_key worksheet_id = LinkedPage rows next ->
  (forall table,
     _export_mapping_file client spreadsheet_key worksheet_id headers
     <> Return table)
  /\ (forall e,
        export_rows headers (_get_cleaned_headers headers) rows
          [map Some headers] false
        = Raise e ->
        _export_mapping_file client spreadsheet_key worksheet_id headers
        = Raise e)
  /\ (forall mapping_lines found_data,
        export_rows headers (_get_cleaned_headers headers) rows
          [map Some headers] false
        = Return (mapping_lines, found_data) ->
        _export_mapping_file client spreadsheet_key worksheet_id headers
        = Raise (NameError
                   "global name 'SpreadsheetsListFeedFromString' is not defined")).
Proof.
  intros Hfeed. unfold _export_mapping_file. rewrite Hfeed. split; [|split].
  - intros table. apply export_pages_linked.
  - intros e Hrows. apply export_pages_Raise. exact Hrows.
  - intros ml fd Hrows. simpl. rewrite Hrows. reflexivity.
Qed.

Lemma export_linked_feed_raises_witness :
  _export_mapping_file two_pages_service "K" "od6" ["a"; "b"]
  = Raise (NameError "global name 'SpreadsheetsListFeedFromString' is not defined")
  /\ _export_mapping_file two_pages_service "K" "od6" ["a"; "b"; "c"]
     = Raise (RemoteMappingFileError (unmapped_header_msg "c")).
Proof.
  split.
  - apply (proj2 (proj2 (export_linked_feed_raises two_pages_service "K" "od6"
                           ["a"; "b"]
                           [ {[ "a" := Some "x"; "b" := Some "y" ]} ]
                           (LastPage [ {[ "a" := Some "u"; "b" := Some "v" ]} ])
                           eq_refl))
             [ [Some "a"; Some "b"]; [Some "x"; Some "y"] ] true).
    vm_compute. reflexivity.
  - apply (proj1 (proj2 (export_linked_feed_raises two_pages_service "K" "od6"
                           ["a"; "b"; "c"]
                           [ {[ "a" := Some "x"; "b" := Some "y" ]} ]
                           (LastPage [ {[ "a" := Some "u"; "b" := Some "v" ]} ])
                           eq_refl))).
    vm_compute. reflexivity.
Defined.

(** X12: a row with a blank first cell, met when only comment rows came
    before it, makes the export raise AttributeError. *)
Theorem blank_first_cell_raises (client : SpreadsheetsService)
    (spreadsheet_key worksheet_id : string) (headers : list string)
    (done rest : list Row) (row : Row) (c : string) :
  entry (GetListFeed client spreadsheet_key worksheet_id) = done ++ row :: rest ->
  head (_get_cleaned_headers headers) = Some c ->
  Forall (fun r => starts_comment c r = true) done ->
  row !! c = Some None ->
  _export_mapping_file client spreadsheet_key worksheet_id headers
  = Raise (AttributeError "'NoneType' object has no attribute 'lstrip'").
Proof.
  intros Hrows Hhead Hdone Hcell.
  destruct (zip_cleaned_head _ _ Hhead) as (h & hcs & Hzip).
  unfold _export_mapping_file. apply export_pages_Raise.
  rewrite Hrows, export_rows_app.
  rewrite (export_comment_rows _ _ _ _ _ _ _ Hzip Hdone), bind_Return.
  rewrite export_rows_cons, Hzip, enumerate_cons. simpl. rewrite Hcell.
  reflexivity.
Qed.

Lemma blank_first_cell_raises_witness :
  _export_mapping_file blank_first_cell_service "K" "od6" ["a"; "b"]
  = Raise (AttributeError "'NoneType' object has no attribute 'lstrip'").
Proof.
  apply (blank_first_cell_raises blank_first_cell_service "K" "od6" ["a"; "b"]
           [ {[ "a" := Some "#note"; "b" := None ]} ] []
           {[ "a" := None; "b" := Some "y" ]} "a").
  - reflexivity.
  - reflexivity.
  - repeat constructor.
  - reflexivity.
Defined.

(** X13: when the list feed is one page of comment rows, the export
    returns the header line followed by the first cell of each row, one
    line per row, whatever the other columns of the rows hold. *)
Theorem export_comment_rows_only (client : SpreadsheetsService)
    (spreadsheet_key worksheet_id : string) (headers : list string)
    (rows : list Row) (c : string) :
  GetListFeed client spreadsheet_key worksheet_id = LastPage rows ->
  head (_get_cleaned_headers headers) = Some c ->
  Forall (fun row => starts_comment c row = true) rows ->
  _export_mapping_file client spreadsheet_key worksheet_id headers
  = Return (map Some headers :: map (comment_line c) rows).
Proof.
  intros Hfeed Hhead Hall.
  destruct (zip_cleaned_head _ _ Hhead) as (h & hcs & Hzip).
  unfold _export_mapping_file. rewrite Hfeed. simpl.
  rewrite (export_comment_rows _ _ _ _ _ _ _ Hzip Hall). reflexivity.
Qed.

Lemma export_comment_rows_only_witness :
  _export_mapping_file comments_only_service "K" "od6" ["a"; "b"]
  = Return [ [Some "a"; Some "b"]; [Some "#one"]; [Some " # two"] ].
Proof.
  etrans;
    [apply (export_comment_rows_only comments_only_service "K" "od6" ["a"; "b"]
              [ {[ "a" := Some "#one"; "b" := None ]}; {[ "a" := Some " # two" ]} ]
              "a")|].
  - reflexivity.
  - reflexivity.
  - repeat constructor.
  - vm_compute. reflexivity.
Defined.

(** X14: a table returned by the export is the header line followed by
    one line per row of the list feed, in feed order; each line holds
    the cells of its row under the cleaned headers, one per header, or
    the row's first cell alone when that cell starts with [#]. *)
Theorem export_table_shape (client : SpreadsheetsService)
    (spreadsheet_key worksheet_id : string) (headers : list string)
    (table : list (list cell)) :
  _export_mapping_file client spreadsheet_key worksheet_id headers = Return table ->
  exists lines,
    table = map Some headers :: lines
    /\ Forall2 (exported_line (zip headers (_get_cleaned_headers headers)))
         (entry (GetListFeed client spreadsheet_key worksheet_id)) lines.
Proof.
  unfold _export_mapping_file. intros [fd Hrows]%export_pages_Return.
  apply export_rows_lines in Hrows as (lines & -> & Hlines).
  exists lines. split; [reflexivity|exact Hlines].
Qed.

Lemma export_table_shape_witness :
  exists lines,
    [ [Some "a"; Some "b"]; [Some "  #a comment"]; [Some "x"; Some "y"] ]
    = map Some ["a"; "b"] :: lines
    /\ Forall2 (exported_line (zip ["a"; "b"] (_get_cleaned_headers ["a"; "b"])))
         (entry (GetListFeed comment_then_data_service "K" "od6")) lines.
Proof.
  apply (export_table_shape comment_then_data_service "K" "od6" ["a"; "b"]).
  vm_compute. reflexivity.
Defined.

(** X15: with no header, the export of a one-page list feed raises
    nothing and gives an empty line for the header and for each row. *)
Theorem export_without_headers (client : SpreadsheetsService)
    (spreadsheet_key worksheet_id : string) (rows : list Row) :
  GetListFeed client spreadsheet_key worksheet_id = LastPage rows ->
  _export_mapping_file client spreadsheet_key worksheet_id []
  = Return ([] :: map (fun _ => []) rows).
Proof.
  intros Hfeed. unfold _export_mapping_file. rewrite Hfeed.
  change (_get_cleaned_headers []) with (@nil string). simpl.
  rewrite export_rows_no_headers. reflexivity.
Qed.

Lemma export_without_headers_witness :
  _export_mapping_file comments_only_service "K" "od6" []
  = Return [ []; []; [] ].
Proof.
  etrans;
    [apply (export_without_headers comments_only_service "K" "od6"
              [ {[ "a" := Some "#one"; "b" := None ]}; {[ "a" := Some " # two" ]} ])|].
  - reflexivity.
  - reflexivity.
Defined.

(** ** Serializer, further properties *)

Section Quoting.

Lemma doublequote_inj (a b : string) : doublequote a = doublequote b -> a = b.
Proof.
  revert b; induction a as [|c a IH]; intros [|d b]; simpl.
  - reflexivity.
  - destruct (decide (d = quotechar)); discriminate.
  - destruct (decide (c = quotechar)); discriminate.
  - destruct (decide (c = quotechar)) as [->|Hc],
             (decide (d = quotechar)) as [->|Hd].
    + intros [= H]. rewrite (IH _ H). reflexivity.
    + intros [= <- _]. contradiction.
    + intros [= -> _]. contradiction.
    + intros [= -> H]. rewrite (IH _ H). reflexivity.
Qed.

Lemma app_chr_inj (c : ascii) (a b : string) :
  a +:+ chr c = b +:+ chr c -> a = b.
Proof.
  revert b; induction a as [|x a IH]; intros [|y b];
    rewrite ?app_empty_l, ?app_String_l.
  - reflexivity.
  - intros [= _ H]. destruct b; discriminate H.
  - intros [= _ H]. destruct a; discriminate H.
  - intros [= -> H]. rewrite (IH _ H). reflexivity.
Qed.

Lemma quoted_not_plain (s t : string) :
  t = chr quotechar +:+ s -> has_special t = true.
Proof. intros ->. reflexivity. Qed.

End Quoting.

(** X16: the writer loses nothing of a cell text without NUL: two such
    texts written as the same field are equal. *)
Theorem write_field_injective (quote_empty : bool) (a b : string) :
  has_char NUL a = false -> has_char NUL b = false ->
  write_field quote_empty (Some a) = write_field quote_empty (Some b) ->
  a = b.
Proof.
  intros Ha Hb. unfold write_field. simpl.
  rewrite (c_str_no_NUL _ Ha), (c_str_no_NUL _ Hb).
  destruct (has_special a || bool_decide (a = "") && quote_empty) eqn:Qa,
           (has_special b || bool_decide (b = "") && quote_empty) eqn:Qb.
  - intros H. apply doublequote_inj, (app_chr_inj quotechar).
    unfold chr at 1 3 in H. rewrite !app_String_l, !app_empty_l in H.
    injection H as H. exact H.
  - intros H. symmetry in H. apply quoted_not_plain in H.
    rewrite H in Qb. discriminate.
  - intros H. apply quoted_not_plain in H. rewrite H in Qa. discriminate.
  - auto.
Qed.

Lemma write_field_injective_witness :
  tab_quote_cell = tab_quote_cell.
Proof.
  apply (write_field_injective false tab_quote_cell tab_quote_cell);
    reflexivity.
Defined.

(** X17: when the export of the selected worksheet returns a table of
    plain rows, the loader returns the tab-joined, line-feed-terminated
    lines of that table, and splitting its output on line feeds and tabs
    gives the cell texts of the table, the header line first. *)
Theorem load_output_reads_back (gd_client : SpreadsheetsService)
    (spreadsheet_key : string) (worksheet_name : option string)
    (entries : list WorksheetEntry) (worksheet : WorksheetEntry)
    (lines : list (list cell)) :
  let key := _extract_spreadsheet_key_from_url spreadsheet_key in
  let headers := _get_spreadsheet_headers gd_client key (worksheet_id_of worksheet) in
  GetWorksheetsFeed gd_client key = Return entries ->
  selected_worksheet worksheet_name entries = Some worksheet ->
  headers <> [] ->
  _export_mapping_file gd_client key (worksheet_id_of worksheet) headers
  = Return (map Some headers :: lines) ->
  forallb plain_row (map Some headers :: lines) = true ->
  load_google_spreadsheet_mapping_file gd_client spreadsheet_key worksheet_name
  = Return (plain_lines (map Some headers :: lines))
  /\ parse_tsv (plain_lines (map Some headers :: lines))
     = headers :: map (map field_text) lines.
Proof.
  intros key headers Hfeed Hsel Hne Hexp Hplain. split.
  - rewrite (load_with_entries _ _ _ _ _ Hfeed Hsel). fold key.
    unfold read_worksheet. fold headers. rewrite Hexp.
    destruct headers; [contradiction|]. simpl length. simpl Nat.ltb. cbv iota.
    rewrite bind_Return. rewrite (writerows_plain _ Hplain). reflexivity.
  - rewrite (parse_plain_lines _ Hplain). simpl. f_equal.
    rewrite map_map. simpl. apply map_id.
Qed.

Lemma load_output_reads_back_witness :
  load_google_spreadsheet_mapping_file two_maps_service "K" (Some "Map")
  = Return (plain_lines [ [Some "#SampleID"; Some "Treatment"];
                          [Some "PC.354"; Some "Control"] ])
  /\ parse_tsv (plain_lines [ [Some "#SampleID"; Some "Treatment"];
                              [Some "PC.354"; Some "Control"] ])
     = [ ["#SampleID"; "Treatment"]; ["PC.354"; "Control"] ].
Proof.
  apply (load_output_reads_back two_maps_service "K" (Some "Map")
           [sheet_od6; sheet_od7; sheet_blank] sheet_od7
           [ [Some "PC.354"; Some "Control"] ]).
  - reflexivity.
  - reflexivity.
  - discriminate.
  - vm_compute. reflexivity.
  - reflexivity.
Defined.

(** X18: without a worksheet name, the loader reads the first worksheet
    of the feed: the worksheet ID is the last [/]-segment of the first
    entry's id text, the header cells are fetched from the cells feed of
    that ID and the rows from the list feed of that ID, and the result
    is the serialized export of these rows, or the empty-header error. *)
Theorem load_defaults_to_first_worksheet (gd_client : SpreadsheetsService)
    (spreadsheet_key : string) (first_entry : WorksheetEntry)
    (others : list WorksheetEntry) :
  let key := _extract_spreadsheet_key_from_url spreadsheet_key in
  let worksheet_id := last_item (split "/" (id_text first_entry)) in
  GetWorksheetsFeed gd_client key = Return (first_entry :: others) ->
  load_google_spreadsheet_mapping_file gd_client spreadsheet_key None
  = match concat (feed_pages (GetCellsFeed gd_client key worksheet_id)) with
    | [] => Raise (RemoteMappingFileError (empty_header_msg key))
    | headers =>
        mapping_lines ←
          export_pages headers (_get_cleaned_headers headers)
            (GetListFeed gd_client key worksheet_id) [map Some headers];
        Return (writerows mapping_lines)
    end.
Proof.
  intros key worksheet_id Hfeed.
  rewrite (load_with_entries _ _ None _ _ Hfeed eq_refl).
  rewrite read_worksheet_fetches, headers_under_id.
  subst key worksheet_id. destruct (concat _); reflexivity.
Qed.

Lemma load_defaults_to_first_worksheet_witness :
  load_google_spreadsheet_mapping_file two_maps_service "K" None
  = Return ("first" +:+ chr LF).
Proof.
  etrans;
    [apply (load_defaults_to_first_worksheet two_maps_service "K" sheet_od6
              [sheet_od7; sheet_blank]); reflexivity|].
  vm_compute. reflexivity.
Defined.
